(** * SentiTube: the chunk-and-aggregate pipeline of [server.js]

    A shallow embedding of the [/analyze] route of [src/server.js] and of
    the helpers it calls ([buildChunkPrompt], [buildPremiumPrompt],
    [runChunk], [runFinalPremium]), followed by the properties the
    specification states about them.

    The program is JavaScript, so the embedding works on JavaScript data:
    strings are sequences of UTF-16 code units, numbers are IEEE 754
    binary64 values ([spec_float] at precision 53), values are the JSON
    value space plus [undefined].  The built-ins of the language runtime
    that the route relies on but does not define ([JSON.parse],
    [JSON.stringify], number/string conversions) and the remote model are
    gathered in one record, [runtime], over which every definition that
    needs them is parameterised. *)

From Stdlib Require Import List Arith ZArith NArith Bool Lia.
From Stdlib Require String Ascii DecimalString.
From Stdlib Require Import SpecFloat.
From Equations Require Import Equations.
Import ListNotations.
Import String.StringSyntax.
Delimit Scope string_scope with string.

Set Implicit Arguments.
Set Warnings "-register-all".

(** ** Strings *)

(** A UTF-16 code unit; a JavaScript string is a sequence of them. *)
Definition code_unit : Type := N.
Definition jstring : Type := list code_unit.

(** An ASCII literal of the source as a JavaScript string. *)
Definition js (s : String.string) : jstring :=
  map Ascii.N_of_ascii (String.list_ascii_of_string s).
Arguments js s%_string.

Definition dq : jstring := [34%N].
Definition en_dash : jstring := [8211%N].
Definition newline : jstring := [10%N].
Definition BACKTICK : code_unit := 96%N.

Definition jstring_eqb (a b : jstring) : bool :=
  if list_eq_dec N.eq_dec a b then true else false.

(** [Array.prototype.join(sep)] on an array of strings. *)
Fixpoint join (sep : jstring) (parts : list jstring) : jstring :=
  match parts with
  | [] => []
  | [p] => p
  | p :: rest => p ++ sep ++ join sep rest
  end.

(** The decimal digits of a natural number, which is what a template
    literal prints for an integer index. *)
Definition decimal (n : nat) : jstring :=
  js (DecimalString.NilEmpty.string_of_uint (Nat.to_uint n)).

Module Regex.

(** A pattern without operators: one character class per position. *)
Definition pattern : Type := list (code_unit -> bool).

Definition lit (c : code_unit) : code_unit -> bool := N.eqb c.

(** A letter under the [i] flag.  Without the [u] flag a code unit is
    canonicalised by its upper-case mapping, except that a non-ASCII unit
    never folds to an ASCII one; for [j], [s], [o] and [n] this leaves
    exactly the two ASCII casings. *)
Definition ci (lower upper : code_unit) : code_unit -> bool :=
  fun c => N.eqb c lower || N.eqb c upper.

(** [/```json/gi] *)
Definition FENCE_JSON : pattern :=
  [ lit BACKTICK; lit BACKTICK; lit BACKTICK;
    ci 106%N 74%N; ci 115%N 83%N; ci 111%N 79%N; ci 110%N 78%N ].

(** [/```/g] *)
Definition FENCE : pattern := [ lit BACKTICK; lit BACKTICK; lit BACKTICK ].

(** Does the pattern match at the start of [s]? *)
Fixpoint matches_at (p : pattern) (s : jstring) : bool :=
  match p, s with
  | [], _ => true
  | _ :: _, [] => false
  | t :: p', c :: s' => t c && matches_at p' s'
  end.

(** [s.replace(/p/g, "")]: scan from the left; at a match drop as many
    code units as the pattern is long and resume after them, otherwise
    keep the code unit.  [skip] counts the units of the current match
    still to drop. *)
Fixpoint remove_from (p : pattern) (skip : nat) (s : jstring) : jstring :=
  match s with
  | [] => []
  | c :: s' =>
      match skip with
      | S k => remove_from p k s'
      | O => if matches_at p s
             then remove_from p (length p - 1) s'
             else c :: remove_from p 0 s'
      end
  end.

Definition remove_all (p : pattern) (s : jstring) : jstring :=
  remove_from p 0 s.

End Regex.

(** The code units [String.prototype.trim] strips: WhiteSpace and
    LineTerminator of the language grammar. *)
Definition is_white_space (c : code_unit) : bool :=
  let z := Z.of_N c in
  ((9 <=? z) && (z <=? 13) || (z =? 32) || (z =? 160) || (z =? 5760)
   || (8192 <=? z) && (z <=? 8202) || (z =? 8232) || (z =? 8233)
   || (z =? 8239) || (z =? 8287) || (z =? 12288) || (z =? 65279))%Z.

Fixpoint trimStart (s : jstring) : jstring :=
  match s with
  | c :: s' => if is_white_space c then trimStart s' else s
  | [] => []
  end.

Definition trimEnd (s : jstring) : jstring := rev (trimStart (rev s)).

Definition trim (s : jstring) : jstring := trimEnd (trimStart s).

(** [raw.replace(/```json/gi,"").replace(/```/g,"").trim()], the expression
    of lines 125 and 146. *)
Definition clean (raw : jstring) : jstring :=
  trim (Regex.remove_all Regex.FENCE (Regex.remove_all Regex.FENCE_JSON raw)).

(** ** Numbers *)

Module Number.

Definition prec : Z := 53.
Definition emax : Z := 1024.
Definition number : Type := spec_float.

Definition zero : number := S754_zero false.
Definition NaN : number := S754_nan.
Definition add : number -> number -> number := SFadd prec emax.
Definition div : number -> number -> number := SFdiv prec emax.
Definition ltb : number -> number -> bool := SFltb.
Definition of_Z (z : Z) : number := binary_normalize prec emax z 0 false.
Definition of_nat (n : nat) : number := of_Z (Z.of_nat n).

(** [Math.round]: the integral number closest to [x], the larger one at a
    tie; [NaN], the infinities, the zeros and integral values are returned
    as they are, and a result of zero keeps the sign of [x].  For a
    finite [x = +-m * 2^e] with [e < 0] the integer is
    [floor (x + 1/2)], computed exactly. *)
Definition Math_round (x : number) : number :=
  match x with
  | S754_finite s m e =>
      if (0 <=? e)%Z then x
      else
        let k := (- e)%Z in
        let n := cond_Zopp s (Zpos m) in
        let q := ((2 * n + 2 ^ k) / 2 ^ (k + 1))%Z in
        if (q =? 0)%Z then S754_zero s else of_Z q
  | _ => x
  end.

Definition is_zero (x : number) : bool :=
  match x with S754_zero _ => true | _ => false end.

Definition is_NaN (x : number) : bool :=
  match x with S754_nan => true | _ => false end.

(** A number that is neither a zero nor [NaN]. *)
Definition nonzero (x : number) : Prop :=
  is_zero x = false /\ is_NaN x = false.

End Number.

Definition number : Type := Number.number.

(** ** Values *)

(** The JSON value space plus [undefined].  An object is the list of its
    own properties in insertion order.  An array carries, besides its
    elements, the named properties assigned to it (none after
    [JSON.parse]). *)
Inductive value : Type :=
| VUndef
| VNull
| VBool (b : bool)
| VNum (n : number)
| VStr (s : jstring)
| VArr (elems : list value) (props : list (jstring * value))
| VObj (props : list (jstring * value)).

Definition props : Type := list (jstring * value).

Fixpoint lookup (k : jstring) (ps : props) : option value :=
  match ps with
  | [] => None
  | (k', v) :: rest => if jstring_eqb k k' then Some v else lookup k rest
  end.

(** Assignment to a property: an existing property keeps its place, a new
    one goes last. *)
Fixpoint assign (k : jstring) (v : value) (ps : props) : props :=
  match ps with
  | [] => [(k, v)]
  | (k', v') :: rest =>
      if jstring_eqb k k' then (k', v) :: rest else (k', v') :: assign k v rest
  end.

(** ** Errors *)

(** A thrown [Error]; the route only ever reads its [message]. *)
Record error : Type := Error { message : jstring }.

Inductive result (A : Type) : Type :=
| Ok (a : A)
| Throw (e : error).
Arguments Ok {A} a.
Arguments Throw {A} e.

(** The [TypeError]s the engine itself raises in this program. *)
Inductive type_error : Type :=
| PropertyOfNullish      (* reading or writing a property of null/undefined *)
| NotAFunction           (* calling a value that is not a function *)
| PropertyOnPrimitive    (* strict-mode assignment to a property of a primitive *)
| NoPrimitiveValue.      (* an object that converts to no primitive value *)

Inductive hint : Type := HintDefault | HintNumber | HintString.

(** ** The runtime: language built-ins and the remote model *)

Record runtime : Type := Runtime {
  (** [model.generateContent(...)] followed by [result.response.text()]:
      the raw text, or the error either of them throws.  The first
      argument is the number of calls made before this one: the service
      need not answer the same prompt twice in the same way. *)
  generateContent : nat -> jstring -> result jstring;
  JSON_parse : jstring -> result value;
  JSON_stringify : value -> jstring;
  Number_toString : number -> jstring;
  String_toNumber : jstring -> number;
  (** [ToPrimitive] on an array or object. *)
  Object_toPrimitive : hint -> value -> result value;
  TypeError_message : type_error -> jstring;
  (** Of the chunk tasks at the given positions, all of which reject, the
      one that rejects first in time. *)
  first_rejected : list nat -> nat
}.

(** ** The result monad and the request monad *)

Definition bind {A B : Type} (r : result A) (k : A -> result B) : result B :=
  match r with
  | Ok a => k a
  | Throw e => Throw e
  end.

Notation "x <- e ;; k" := (bind e (fun x => k))
  (at level 61, e at next level, right associativity).

(** A computation of the route: it may throw, and it appends the prompts
    it sends to the remote model to the log of calls made so far. *)
Definition M (A : Type) : Type := list jstring -> result A * list jstring.

Definition ret {A : Type} (a : A) : M A := fun log => (Ok a, log).

Definition lift {A : Type} (r : result A) : M A := fun log => (r, log).

Definition bindM {A B : Type} (m : M A) (k : A -> M B) : M B :=
  fun log =>
    match m log with
    | (Ok a, log') => k a log'
    | (Throw e, log') => (Throw e, log')
    end.

Notation "x <~ e ;; k" := (bindM e (fun x => k))
  (at level 61, e at next level, right associativity).

(** [try { m } catch (err) { h err }] *)
Definition try_catch {A : Type} (m : M A) (h : error -> M A) : M A :=
  fun log =>
    match m log with
    | (Ok a, log') => (Ok a, log')
    | (Throw e, log') => h e log'
    end.

(** Start every task in order; each runs to its own result whatever the
    others do. *)
Fixpoint dispatch_all {A : Type} (tasks : list (M A)) (log : list jstring)
  : list (result A) * list jstring :=
  match tasks with
  | [] => ([], log)
  | t :: rest =>
      let (r, log') := t log in
      let (rs, log'') := dispatch_all rest log' in
      (r :: rs, log'')
  end.

(** The tasks that rejected, each with its position counted from [i]. *)
Fixpoint rejections {A : Type} (i : nat) (rs : list (result A))
  : list (nat * error) :=
  match rs with
  | [] => []
  | Ok _ :: rest => rejections (S i) rest
  | Throw e :: rest => (i, e) :: rejections (S i) rest
  end.

(** The values of the tasks that did not reject, in order. *)
Fixpoint fulfilled {A : Type} (rs : list (result A)) : list A :=
  match rs with
  | [] => []
  | Ok a :: rest => a :: fulfilled rest
  | Throw _ :: rest => fulfilled rest
  end.

(** The outcome of [Promise.all]: every value in order when no task
    rejects, otherwise the rejection of the task that rejects first in
    time.  Which one that is depends on when the calls settle: [first]
    picks it among the positions of the rejected tasks (a position that
    is not among them counts as the earliest one). *)
Definition settle_all {A : Type} (first : list nat -> nat)
  (rs : list (result A)) : result (list A) :=
  match rejections 0 rs with
  | [] => Ok (fulfilled rs)
  | (i, e) :: others =>
      let winner := first (i :: map fst others) in
      Throw (match find (fun r => Nat.eqb (fst r) winner) others with
             | Some (_, e') => e'
             | None => e
             end)
  end.

Definition Promise_all {A : Type} (first : list nat -> nat)
  (tasks : list (M A)) : M (list A) :=
  fun log =>
    let (rs, log') := dispatch_all tasks log in (settle_all first rs, log').

(** ** The chunking loop (lines 162-165) *)

Module Chunker.

(** [slice(b, e)] of an array or a string for non-negative integer
    bounds: the items at the indices [b <= k < min e length]. *)
Definition slice {A : Type} (l : list A) (b e : nat) : list A :=
  firstn (e - b) (skipn b l).

(** The batch size, the literal [100] of the loop. *)
Definition BATCH : nat := 100.

(** [for (let i = 0; i < comments.length; i += 100)
       chunks.push(comments.slice(i, i + 100));]
    with the loop variable [i] and the array [chunks] as the state. *)
Equations? chunk_loop {A : Type} (comments : list A) (i : nat)
  (chunks : list (list A)) : list (list A) by wf (length comments - i) lt :=
  chunk_loop comments i chunks with lt_dec i (length comments) => {
    | left _ => chunk_loop comments (i + BATCH)
                  (chunks ++ [slice comments i (i + BATCH)]);
    | right _ => chunks }.
Proof. unfold BATCH. lia. Qed.

Definition split_chunks {A : Type} (comments : list A) : list (list A) :=
  chunk_loop comments 0 [].

(** [ceil (a / b)] on natural numbers. *)
Definition ceil_div (a b : nat) : nat := (a + (b - 1)) / b.

End Chunker.

(** ** The prompt templates (lines 29-51 and 61-111) *)

Definition chunk_prompt_lines : list jstring :=
  [ []
  ; js "Analyze these YouTube comments and return STRICT JSON:"
  ; []
  ; js "{"
  ; js " " ++ dq ++ js "pos" ++ dq ++ js ": number,"
  ; js " " ++ dq ++ js "neg" ++ dq ++ js ": number,"
  ; js " " ++ dq ++ js "neu" ++ dq ++ js ": number,"
  ; js " " ++ dq ++ js "praise" ++ dq ++ js ": [" ++ dq ++ js "string" ++ dq ++ js "],"
  ; js " " ++ dq ++ js "pain" ++ dq ++ js ": [" ++ dq ++ js "string" ++ dq ++ js "],"
  ; js " " ++ dq ++ js "themes" ++ dq ++ js ": [" ++ dq ++ js "string" ++ dq ++ js "]"
  ; js "}"
  ; []
  ; js "Extract:"
  ; js "- estimated positive %"
  ; js "- estimated negative %"
  ; js "- estimated neutral %"
  ; js "- 5 short praise bullets"
  ; js "- 5 short pain bullets"
  ; js "- 5 short audience themes"
  ; []
  ; js "COMMENTS:" ].

Definition premium_prompt_lines : list jstring :=
  [ []
  ; js "You are a YouTube audience intelligence engine."
  ; []
  ; js "Analyze the provided aggregated comment summaries and return valid JSON only."
  ; js "Do not use markdown or backticks."
  ; []
  ; js "Output premium, insight-dense analysis with clear audience patterns and strategic value."
  ; []
  ; js "Required JSON fields:"
  ; js "- positivePercentage (number)"
  ; js "- negativePercentage (number)"
  ; js "- neutralPercentage (number)"
  ; []
  ; js "- sentimentSummary_premium (5" ++ en_dash ++ js "7 sentences)"
  ; js "- topPraise_premium (6" ++ en_dash ++ js "10 items)"
  ; js "- topPainPoints_premium (6" ++ en_dash ++ js "10 items)"
  ; []
  ; js "- strategicOpportunity (4" ++ en_dash ++ js "6 sentences)"
  ; js "- audienceDeepProfile (4" ++ en_dash ++ js "6 sentences)"
  ; js "- contentIdeas (3" ++ en_dash ++ js "6 short items)"
  ; js "- engagementPatterns (3" ++ en_dash ++ js "6 short items)"
  ; []
  ; js "Guidelines:"
  ; js "- Focus on real audience behavior and intent."
  ; js "- Be concise but deep."
  ; js "- Prioritize clarity and usefulness over verbosity."
  ; js "- Assume this is a paid, professional report."
  ; []
  ; js "Return a single, complete JSON object matching the schema exactly."
  ; []
  ; []
  ; js "{"
  ; js "  " ++ dq ++ js "positivePercentage" ++ dq ++ js ": number,"
  ; js "  " ++ dq ++ js "negativePercentage" ++ dq ++ js ": number,"
  ; js "  " ++ dq ++ js "neutralPercentage" ++ dq ++ js ": number,"
  ; []
  ; js "  " ++ dq ++ js "sentimentSummary_premium" ++ dq ++ js ": " ++ dq ++ js "string" ++ dq ++ js ","
  ; js "  " ++ dq ++ js "actionableInsight_premium" ++ dq ++ js ": " ++ dq ++ js "string" ++ dq ++ js ","
  ; []
  ; js "  " ++ dq ++ js "topPraise_premium" ++ dq ++ js ": [" ++ dq ++ js "string" ++ dq ++ js "],"
  ; js "  " ++ dq ++ js "topPainPoints_premium" ++ dq ++ js ": [" ++ dq ++ js "string" ++ dq ++ js "],"
  ; []
  ; js "  " ++ dq ++ js "strategicOpportunity" ++ dq ++ js ": " ++ dq ++ js "string" ++ dq ++ js ","
  ; js "  " ++ dq ++ js "audienceDeepProfile" ++ dq ++ js ": " ++ dq ++ js "string" ++ dq ++ js ","
  ; js "  " ++ dq ++ js "contentIdeas" ++ dq ++ js ": [" ++ dq ++ js "string" ++ dq ++ js "],"
  ; js "  " ++ dq ++ js "engagementPatterns" ++ dq ++ js ": [" ++ dq ++ js "string" ++ dq ++ js "]"
  ; js "}"
  ; []
  ; js "### COMMENTS:" ].

(** The record [runChunk] returns when its response does not parse. *)
Definition FALLBACK : value :=
  VObj [ (js "pos", VNum Number.zero); (js "neg", VNum Number.zero);
         (js "neu", VNum Number.zero); (js "praise", VArr [] []);
         (js "pain", VArr [] []); (js "themes", VArr [] []) ].

Record response : Type := Response { status : nat; body : value }.

(** ** The route and its helpers, over a runtime *)

Section WithRuntime.

Variable rt : runtime.

Definition throwTypeError {A : Type} (t : type_error) : result A :=
  Throw (Error (TypeError_message rt t)).

(** *** Conversions of the language *)

Definition ToBoolean (v : value) : bool :=
  match v with
  | VUndef | VNull => false
  | VBool b => b
  | VNum n => negb (Number.is_zero n || Number.is_NaN n)
  | VStr [] => false
  | VStr (_ :: _) => true
  | VArr _ _ | VObj _ => true
  end.

Definition is_primitive (v : value) : bool :=
  match v with VArr _ _ | VObj _ => false | _ => true end.

Definition ToPrimitive (h : hint) (v : value) : result value :=
  if is_primitive v then Ok v
  else p <- Object_toPrimitive rt h v ;;
       if is_primitive p then Ok p else throwTypeError NoPrimitiveValue.

(** [ToNumber] of a primitive. *)
Definition prim_ToNumber (p : value) : number :=
  match p with
  | VUndef => Number.NaN
  | VNull => Number.zero
  | VBool true => Number.of_Z 1
  | VBool false => Number.zero
  | VNum n => n
  | VStr s => String_toNumber rt s
  | VArr _ _ | VObj _ => Number.NaN
  end.

(** [ToString] of a primitive. *)
Definition prim_ToString (p : value) : jstring :=
  match p with
  | VUndef => js "undefined"
  | VNull => js "null"
  | VBool true => js "true"
  | VBool false => js "false"
  | VNum n => Number_toString rt n
  | VStr s => s
  | VArr _ _ | VObj _ => []
  end.

Definition ToNumber (v : value) : result number :=
  p <- ToPrimitive HintNumber v ;; Ok (prim_ToNumber p).

Definition ToString (v : value) : result jstring :=
  p <- ToPrimitive HintString v ;; Ok (prim_ToString p).

Definition is_string (v : value) : bool :=
  match v with VStr _ => true | _ => false end.

(** [a + b] *)
Definition js_add (a b : value) : result value :=
  pa <- ToPrimitive HintDefault a ;;
  pb <- ToPrimitive HintDefault b ;;
  if is_string pa || is_string pb
  then Ok (VStr (prim_ToString pa ++ prim_ToString pb))
  else Ok (VNum (Number.add (prim_ToNumber pa) (prim_ToNumber pb))).

(** [a / b] *)
Definition js_div (a b : value) : result number :=
  na <- ToNumber a ;;
  nb <- ToNumber b ;;
  Ok (Number.div na nb).

(** [i < v] for a number [i] *)
Definition js_lt_number (i : number) (v : value) : result bool :=
  n <- ToNumber v ;; Ok (Number.ltb i n).

(** *** Property access

    [get_prop v k] is [v.k] for a key [k] that is neither an array index,
    nor [length], nor a member of a built-in prototype: the data keys of
    this program ([comments], [pos], [praise], ...). *)
Definition get_prop (v : value) (k : jstring) : result value :=
  match v with
  | VUndef | VNull => throwTypeError PropertyOfNullish
  | VBool _ | VNum _ | VStr _ => Ok VUndef
  | VArr _ ps | VObj ps =>
      Ok (match lookup k ps with Some x => x | None => VUndef end)
  end.

(** [v.k = x] in strict mode (the file is an ES module), same keys. *)
Definition set_prop (v : value) (k : jstring) (x : value) : result value :=
  match v with
  | VUndef | VNull => throwTypeError PropertyOfNullish
  | VBool _ | VNum _ | VStr _ => throwTypeError PropertyOnPrimitive
  | VArr es ps => Ok (VArr es (assign k x ps))
  | VObj ps => Ok (VObj (assign k x ps))
  end.

(** [v.length] *)
Definition get_length (v : value) : result value :=
  match v with
  | VUndef | VNull => throwTypeError PropertyOfNullish
  | VBool _ | VNum _ => Ok VUndef
  | VStr s => Ok (VNum (Number.of_nat (length s)))
  | VArr es _ => Ok (VNum (Number.of_nat (length es)))
  | VObj ps => Ok (match lookup (js "length") ps with Some x => x | None => VUndef end)
  end.

(** *** Array methods with a callback *)

(** [l.map((c, i) => f c i)], with [i] counted from [start]. *)
Fixpoint map_indexed {A : Type} (f : value -> nat -> result A)
  (start : nat) (l : list value) : result (list A) :=
  match l with
  | [] => Ok []
  | c :: l' =>
      x <- f c start ;; xs <- map_indexed f (S start) l' ;; Ok (x :: xs)
  end.

(** [l.reduce(f, init)] *)
Fixpoint reduce (f : value -> value -> result value) (l : list value)
  (acc : value) : result value :=
  match l with
  | [] => Ok acc
  | p :: l' => acc' <- f acc p ;; reduce f l' acc'
  end.

(** [l.flatMap(f)]: an array returned by [f] contributes its elements,
    any other value contributes itself. *)
Fixpoint flatMap (f : value -> result value) (l : list value)
  : result (list value) :=
  match l with
  | [] => Ok []
  | p :: l' =>
      r <- f p ;;
      rest <- flatMap f l' ;;
      Ok (match r with VArr es _ => es ++ rest | _ => r :: rest end)
  end.

(** *** [buildChunkPrompt] (lines 26-52) *)

Definition numbered_comment (c : value) (i : nat) : result jstring :=
  s <- ToString c ;; Ok (decimal (i + 1) ++ js ". " ++ s).

Definition buildChunkPrompt (chunk : value) : result jstring :=
  match chunk with
  | VArr cs _ =>
      items <- map_indexed numbered_comment 0 cs ;;
      let block := join newline items in
      Ok (join newline (chunk_prompt_lines ++ [block; []]))
  | VUndef | VNull => throwTypeError PropertyOfNullish
  | _ => throwTypeError NotAFunction
  end.

(** *** [buildPremiumPrompt] (lines 58-112) *)

Definition buildPremiumPrompt (aggregate : value) : jstring :=
  join newline (premium_prompt_lines ++ [JSON_stringify rt aggregate; []]).

(** *** Calling the model *)

Definition generate (prompt : jstring) : M jstring :=
  fun log => (generateContent rt (length log) prompt, log ++ [prompt]).

(** *** [runChunk] (lines 118-133) *)

Definition runChunk (chunk : value) : M value :=
  prompt <~ lift (buildChunkPrompt chunk) ;;
  raw <~ generate prompt ;;
  match JSON_parse rt (clean raw) with
  | Ok v => ret v
  | Throw _ => ret FALLBACK
  end.

(** *** [runFinalPremium] (lines 139-148) *)

Definition runFinalPremium (aggregate : value) : M value :=
  let prompt := buildPremiumPrompt aggregate in
  raw <~ generate prompt ;;
  lift (JSON_parse rt (clean raw)).

(** *** The aggregation (lines 171-179) *)

(** [partials.reduce((s,p)=>s+p.k,0) / partials.length] *)
Definition average (k : jstring) (partials : list value) : result number :=
  total <- reduce (fun s p => x <- get_prop p k ;; js_add s x)
             partials (VNum Number.zero) ;;
  js_div total (VNum (Number.of_nat (length partials))).

(** [x || []] *)
Definition or_empty (x : value) : value :=
  if ToBoolean x then x else VArr [] [].

(** [partials.flatMap(p=>p.k||[])] *)
Definition collect (k : jstring) (partials : list value)
  : result (list value) :=
  flatMap (fun p => x <- get_prop p k ;; Ok (or_empty x)) partials.

Record aggregate : Type := Aggregate {
  posAvg : number; negAvg : number; neuAvg : number;
  praise : list value; pain : list value; themes : list value
}.

(** The object literal [{posAvg, negAvg, neuAvg, praise, pain, themes}]. *)
Definition aggregate_object (a : aggregate) : value :=
  VObj [ (js "posAvg", VNum (posAvg a)); (js "negAvg", VNum (negAvg a));
         (js "neuAvg", VNum (neuAvg a)); (js "praise", VArr (praise a) []);
         (js "pain", VArr (pain a) []); (js "themes", VArr (themes a) []) ].

Definition aggregate_partials (partials : list value) : result aggregate :=
  pos <- average (js "pos") partials ;;
  neg <- average (js "neg") partials ;;
  neu <- average (js "neu") partials ;;
  pr <- collect (js "praise") partials ;;
  pa <- collect (js "pain") partials ;;
  th <- collect (js "themes") partials ;;
  Ok (Aggregate pos neg neu pr pa th).

(** *** The overwrite of the three percentages (lines 185-187) *)

Definition insert_numbers (a : aggregate) (final : value) : result value :=
  f1 <- set_prop final (js "positivePercentage")
          (VNum (Number.Math_round (posAvg a))) ;;
  f2 <- set_prop f1 (js "negativePercentage")
          (VNum (Number.Math_round (negAvg a))) ;;
  set_prop f2 (js "neutralPercentage")
    (VNum (Number.Math_round (neuAvg a))).

(** *** The chunks of [comments], whatever [comments] is

    An array is cut by the loop.  A string has [length] and [slice] too
    and is cut the same way.  Any other object has no callable [slice]:
    the first iteration throws, if there is one. *)
Definition chunking (comments : value) : result (list value) :=
  match comments with
  | VArr cs _ => Ok (map (fun c => VArr c []) (Chunker.split_chunks cs))
  | VStr s => Ok (map VStr (Chunker.split_chunks s))
  | VObj ps =>
      len <- get_length comments ;;
      enter <- js_lt_number Number.zero len ;;
      if enter : bool then throwTypeError NotAFunction else Ok []
  | VBool _ | VNum _ => Ok []
  | VUndef | VNull => throwTypeError PropertyOfNullish
  end.

(** *** The route [POST /analyze] (lines 154-195) *)

Definition failure (code : nat) (msg : jstring) : response :=
  Response code (VObj [ (js "success", VBool false); (js "error", VStr msg) ]).

Definition success (data : value) : response :=
  Response 200 (VObj [ (js "success", VBool true); (js "data", data) ]).

Definition handler (req_body : value) : M response :=
  try_catch
    (given <~ lift (get_prop req_body (js "comments")) ;;
     let comments := match given with VUndef => VArr [] [] | _ => given end in
     len <~ lift (get_length comments) ;;
     if negb (ToBoolean len)
     then ret (failure 400 (js "No comments"))
     else
       chunks <~ lift (chunking comments) ;;
       partials <~ Promise_all (first_rejected rt) (map runChunk chunks) ;;
       agg <~ lift (aggregate_partials partials) ;;
       final <~ runFinalPremium (aggregate_object agg) ;;
       final' <~ lift (insert_numbers agg final) ;;
       ret (success final'))
    (fun err => ret (failure 500 (message err))).

(** One request, from an empty log: what the handler returns (the
    response it sends, or the error it lets escape) and the prompts sent
    to the model. *)
Definition analyze (req_body : value) : result response * list jstring :=
  handler req_body [].

End WithRuntime.

(** ** Vocabulary of the specification *)

(** Does the pattern match anywhere in [s]? *)
Fixpoint occurs (p : Regex.pattern) (s : jstring) : bool :=
  Regex.matches_at p s
  || match s with [] => false | _ :: s' => occurs p s' end.

Definition head_not_space (s : jstring) : Prop :=
  match s with [] => True | c :: _ => is_white_space c = false end.

(** A string has no white space at either end. *)
Definition trimmed (s : jstring) : bool :=
  match s with [] => true | c :: _ => negb (is_white_space c) end
  && match rev s with [] => true | c :: _ => negb (is_white_space c) end.

(** A fence tag: [json] in some letter casing. *)
Definition json_tag (t : jstring) : bool :=
  match t with
  | [j; s; o; n] =>
      Regex.ci 106%N 74%N j && Regex.ci 115%N 83%N s
      && Regex.ci 111%N 79%N o && Regex.ci 110%N 78%N n
  | _ => false
  end.

Definition fence : jstring := [BACKTICK; BACKTICK; BACKTICK].

Definition no_backtick (s : jstring) : bool :=
  forallb (fun c => negb (N.eqb c BACKTICK)) s.

(** The numeric field [k] of a record, when the record is an object that
    has the field and the field is a number. *)
Definition number_field (k : jstring) (p : value) : option number :=
  match p with
  | VObj ps => match lookup k ps with Some (VNum x) => Some x | _ => None end
  | _ => None
  end.

Definition has_number (k : jstring) (p : value) : Prop :=
  number_field k p <> None.

(** A PartialResult of the data model: [pos], [neg] and [neu] are
    numbers. *)
Definition numeric_partial (p : value) : bool :=
  match number_field (js "pos") p, number_field (js "neg") p,
        number_field (js "neu") p with
  | Some _, Some _, Some _ => true
  | _, _, _ => false
  end.

Definition field_values (k : jstring) (partials : list value) : list number :=
  map (fun p => match number_field k p with
                | Some x => x
                | None => Number.NaN
                end) partials.

(** The unweighted arithmetic mean: the sum, taken from the left starting
    at zero, divided by the count. *)
Definition mean (xs : list number) : number :=
  Number.div (fold_left Number.add xs Number.zero)
    (Number.of_nat (length xs)).

(** The chunks of an array of comments, as the values [runChunk] gets. *)
Definition array_chunks (cs : list value) : list value :=
  map (fun c => VArr c []) (Chunker.split_chunks cs).

Definition is_percentage_key (k : jstring) : bool :=
  jstring_eqb k (js "positivePercentage")
  || jstring_eqb k (js "negativePercentage")
  || jstring_eqb k (js "neutralPercentage").

(** The narrative fields of the report that the prompt schema names. *)
Definition NARRATIVE_KEYS : list jstring :=
  [ js "sentimentSummary_premium"; js "actionableInsight_premium";
    js "topPraise_premium"; js "topPainPoints_premium";
    js "strategicOpportunity"; js "audienceDeepProfile";
    js "contentIdeas"; js "engagementPatterns" ].

(** The own named properties of a value, in order, and its elements. *)
Definition own_props (v : value) : props :=
  match v with VObj ps | VArr _ ps => ps | _ => [] end.

Definition elements (v : value) : list value :=
  match v with VArr es _ => es | _ => [] end.

Definition other_props (v : value) : props :=
  filter (fun kv => negb (is_percentage_key (fst kv))) (own_props v).

(** The route got as far as the synthesis call: the guard let the request
    through, the chunk stage returned its records with [log] the prompts
    sent, and the aggregation produced [agg]. *)
Definition reaches_synthesis (rt : runtime) (req : value) (agg : aggregate)
  (log : list jstring) : Prop :=
  exists given len chunks partials,
    get_prop rt req (js "comments") = Ok given
    /\ get_length rt (match given with VUndef => VArr [] [] | _ => given end)
       = Ok len
    /\ ToBoolean len = true
    /\ chunking rt (match given with VUndef => VArr [] [] | _ => given end)
       = Ok chunks
    /\ Promise_all (first_rejected rt) (map (runChunk rt) chunks) []
       = (Ok partials, log)
    /\ aggregate_partials rt partials = Ok agg.

(** ** A scripted runtime

    A stand-in for the remote model and the parser, for running the route
    on concrete requests: the model answers the [i]-th call with the
    [i]-th scripted text, the parser knows a table of documents and
    rejects every other text. *)
Module TestDouble.

Definition SYNTAX_ERROR : error := Error (js "Unexpected token").
Definition UNAVAILABLE : error := Error (js "fetch failed").

Definition scripted (responses : list jstring) (documents : props)
  : runtime :=
  {| generateContent := fun i _ =>
       match nth_error responses i with
       | Some raw => Ok raw
       | None => Throw UNAVAILABLE
       end;
     JSON_parse := fun s =>
       match lookup s documents with
       | Some v => Ok v
       | None => Throw SYNTAX_ERROR
       end;
     JSON_stringify := fun _ => js "{}";
     Number_toString := fun _ => js "0";
     String_toNumber := fun _ => Number.NaN;
     Object_toPrimitive := fun _ _ => Ok (VStr (js "[object Object]"));
     TypeError_message := fun _ => js "TypeError";
     first_rejected := fun positions => last positions 0 |}.

(** A chunk answer [{pos, neg, neu, praise:[], pain:[], themes:[]}]. *)
Definition partial (pos neg neu : Z) : value :=
  VObj [ (js "pos", VNum (Number.of_Z pos)); (js "neg", VNum (Number.of_Z neg));
         (js "neu", VNum (Number.of_Z neu)); (js "praise", VArr [] []);
         (js "pain", VArr [] []); (js "themes", VArr [] []) ].

(** A synthesis answer whose own percentages are all [1]. *)
Definition report : value :=
  VObj [ (js "positivePercentage", VNum (Number.of_Z 1));
         (js "negativePercentage", VNum (Number.of_Z 1));
         (js "neutralPercentage", VNum (Number.of_Z 1));
         (js "sentimentSummary_premium", VStr (js "Warm."));
         (js "actionableInsight_premium", VStr (js "Post weekly.")) ].

(** [n] comments, all the same text. *)
Definition comments (n : nat) : value :=
  VArr (repeat (VStr (js "nice video")) n) [].

Definition request (n : nat) : value := VObj [ (js "comments", comments n) ].

(** The model wraps its first answer in a fence and answers the second
    chunk with plain prose. *)
Definition rt : runtime :=
  scripted
    [ fence ++ js "json" ++ newline ++ js "A" ++ newline ++ fence;
      js "NOT JSON";
      js "R" ]
    [ (js "A", partial 60 30 10); (js "R", report) ].

(** A model whose two chunk answers both parse, with [pos] 60 and 40. *)
Definition rt_two_chunks : runtime :=
  scripted
    [ js "A"; fence ++ newline ++ js "B" ++ newline ++ fence; js "R" ]
    [ (js "A", partial 60 30 10); (js "B", partial 40 50 10);
      (js "R", report) ].

(** The same model, except that its synthesis answer is prose. *)
Definition rt_prose_synthesis : runtime :=
  scripted
    [ fence ++ js "json" ++ newline ++ js "A" ++ newline ++ fence;
      js "NOT JSON";
      js "Here is the report you asked for." ]
    [ (js "A", partial 60 30 10); (js "R", report) ].

End TestDouble.

(** ** Further vocabulary *)

(** The list a record holds under the key [k]: the elements of the array
    found there, nothing when the key is missing. *)
Definition list_field (k : jstring) (p : value) : list value :=
  match p with
  | VObj ps => match lookup k ps with Some (VArr es _) => es | _ => [] end
  | _ => []
  end.

(** A record, with an array or nothing under [k]. *)
Definition list_or_missing (k : jstring) (p : value) : Prop :=
  exists ps, p = VObj ps
    /\ (lookup k ps = None \/ exists es xs, lookup k ps = Some (VArr es xs)).

(** The string a record holds under [k]. *)
Definition string_field (k : jstring) (p : value) : option jstring :=
  match p with
  | VObj ps => match lookup k ps with Some (VStr s) => Some s | _ => None end
  | _ => None
  end.

(** [a] is [b] with some code units left out. *)
Inductive Subseq : jstring -> jstring -> Prop :=
| Subseq_nil : Subseq [] []
| Subseq_keep (c : code_unit) (a b : jstring) :
    Subseq a b -> Subseq (c :: a) (c :: b)
| Subseq_drop (c : code_unit) (a b : jstring) :
    Subseq a b -> Subseq a (c :: b).

(** A finite number whose exponent is not below the least exponent of the
    format, as that of every binary64 value is. *)
Definition exponent_ok (x : number) : Prop :=
  match x with
  | S754_finite _ _ e => (emin Number.prec Number.emax <= e)%Z
  | _ => True
  end.

(** A running sum: its exponent is in range and it is not [-0]. *)
Definition good_sum (x : number) : Prop :=
  exponent_ok x /\ x <> S754_zero true.

(** A record with a binary64 number under [k]. *)
Definition valid_number_field (k : jstring) (p : value) : Prop :=
  exists x, number_field k p = Some x
            /\ valid_binary Number.prec Number.emax x = true.

(** The keys of the own properties of a value, in order. *)
Definition keys (v : value) : list jstring := map fst (own_props v).

(** The record a chunk contributes, given the text the model returned. *)
Definition chunk_outcome (rt : runtime) (raw : jstring) : value :=
  match JSON_parse rt (clean raw) with
  | Ok v => v
  | Throw _ => FALLBACK
  end.



(** The guard let the request through and the chunk stage returned the
    records [partials], having sent the prompts [log]. *)
Definition chunk_stage_returns (rt : runtime) (req : value)
  (partials : list value) (log : list jstring) : Prop :=
  exists given len chunks,
    get_prop rt req (js "comments") = Ok given
    /\ get_length rt (match given with VUndef => VArr [] [] | _ => given end)
       = Ok len
    /\ ToBoolean len = true
    /\ chunking rt (match given with VUndef => VArr [] [] | _ => given end)
       = Ok chunks
    /\ Promise_all (first_rejected rt) (map (runChunk rt) chunks) []
       = (Ok partials, log).

(** The aggregate of no record at all: [0 / 0] three times. *)
Definition EMPTY_AGGREGATE : aggregate :=
  {| posAvg := Number.NaN; negAvg := Number.NaN; neuAvg := Number.NaN;
     praise := []; pain := []; themes := [] |}.

Module TestDoubleMore.

(** The model of [TestDouble.rt], out of service at its second call. *)
Definition rt_outage : runtime :=
  {| generateContent := fun i p =>
       if Nat.eqb i 1 then Throw TestDouble.UNAVAILABLE
       else generateContent TestDouble.rt i p;
     JSON_parse := JSON_parse TestDouble.rt;
     JSON_stringify := JSON_stringify TestDouble.rt;
     Number_toString := Number_toString TestDouble.rt;
     String_toNumber := String_toNumber TestDouble.rt;
     Object_toPrimitive := Object_toPrimitive TestDouble.rt;
     TypeError_message := TypeError_message TestDouble.rt;
     first_rejected := first_rejected TestDouble.rt |}.

(** A model whose synthesis answer is the JSON number [7]. *)
Definition rt_number_synthesis : runtime :=
  TestDouble.scripted
    [ js "A"; js "A"; js "7" ]
    [ (js "A", TestDouble.partial 60 30 10); (js "7", VNum (Number.of_Z 7)) ].

(** A model that answers the chunk calls and is gone at the third call. *)
Definition rt_no_synthesis : runtime :=
  TestDouble.scripted
    [ js "A"; js "A" ] [ (js "A", TestDouble.partial 60 30 10) ].

(** The runtime of [TestDouble.rt] with a [ToNumber] that reads the one
    string ["06040"]. *)
Definition rt_reads_06040 : runtime :=
  {| generateContent := generateContent TestDouble.rt;
     JSON_parse := JSON_parse TestDouble.rt;
     JSON_stringify := JSON_stringify TestDouble.rt;
     Number_toString := Number_toString TestDouble.rt;
     String_toNumber := fun s =>
       if jstring_eqb s (js "06040") then Number.of_Z 6040 else Number.NaN;
     Object_toPrimitive := Object_toPrimitive TestDouble.rt;
     TypeError_message := TypeError_message TestDouble.rt;
     first_rejected := first_rejected TestDouble.rt |}.

(** A model whose two chunk answers average to halves: [pos] 60 and 41,
    [neu] 10 and 9. *)
Definition rt_half_points : runtime :=
  TestDouble.scripted
    [ js "A"; js "C"; js "R" ]
    [ (js "A", TestDouble.partial 60 30 10);
      (js "C", TestDouble.partial 41 50 9);
      (js "R", TestDouble.report) ].

(** A request with the given value under [comments]. *)
Definition request_with (comments : value) : value :=
  VObj [ (js "comments", comments) ].

End TestDoubleMore.

(** * Properties *)

(** ** The model at work *)

(** 150 comments, a fenced first answer and an unparseable second one:
    the second chunk counts as zeros and the report carries the local
    numbers, not the model's. *)
Example run_150 :
  fst (analyze TestDouble.rt (TestDouble.request 150))
  = Ok (success (VObj
      [ (js "positivePercentage", VNum (Number.of_Z 30));
        (js "negativePercentage", VNum (Number.of_Z 15));
        (js "neutralPercentage", VNum (Number.of_Z 5));
        (js "sentimentSummary_premium", VStr (js "Warm."));
        (js "actionableInsight_premium", VStr (js "Post weekly.")) ])).
Proof. vm_compute. reflexivity. Qed.

(** The scenario of the specification: 150 comments, two chunks of 100 and
    50, [pos] 60 and 40, and a report with [positivePercentage] 50. *)
Example run_150_two_chunks :
  map (@length value) (Chunker.split_chunks (repeat VNull 150)) = [100; 50]
  /\ length (snd (analyze TestDouble.rt_two_chunks (TestDouble.request 150)))
     = 3
  /\ (r <- fst (analyze TestDouble.rt_two_chunks (TestDouble.request 150)) ;;
      d <- get_prop TestDouble.rt_two_chunks (body r) (js "data") ;;
      get_prop TestDouble.rt_two_chunks d (js "positivePercentage"))
     = Ok (VNum (Number.of_Z 50)).
Proof. repeat split; vm_compute; reflexivity. Qed.

Example Math_round_values :
  let half (z : Z) := Number.div (Number.of_Z z) (Number.of_Z 2) in
  Number.Math_round (half 5%Z) = Number.of_Z 3
  /\ Number.Math_round (half (-5)%Z) = Number.of_Z (-2)
  /\ Number.Math_round (half (-1)%Z) = S754_zero true
  /\ Number.Math_round (half 1%Z) = Number.of_Z 1
  /\ Number.Math_round (S754_finite false 9007199254740991%positive (-54)%Z)
     = S754_zero false
  /\ Number.Math_round (Number.of_Z 7) = Number.of_Z 7
  /\ Number.Math_round Number.NaN = Number.NaN.
Proof. repeat split; vm_compute; reflexivity. Qed.

(** A request with anything but a non-empty array under [comments]. *)
Example run_odd_requests :
  analyze TestDouble.rt VNull = (Ok (failure 500 (js "TypeError")), [])
  /\ analyze TestDouble.rt (VObj [ (js "comments", VNull) ])
     = (Ok (failure 500 (js "TypeError")), [])
  /\ analyze TestDouble.rt (VObj [ (js "comments", VNum (Number.of_Z 7)) ])
     = (Ok (failure 400 (js "No comments")), [])
  /\ analyze TestDouble.rt (VObj [ (js "comments", VStr (js "hello")) ])
     = (Ok (failure 500 (js "TypeError")), []).
Proof. repeat split; vm_compute; reflexivity. Qed.

(** ** The chunker *)

Section ChunkerFacts.

Context {A : Type}.
Implicit Types (comments : list A) (chunks : list (list A)).

Import Chunker.

Lemma slice_length comments i :
  length (slice comments i (i + BATCH)) = Nat.min BATCH (length comments - i).
Proof.
  unfold slice. rewrite length_firstn, length_skipn. f_equal. lia.
Qed.

Lemma slice_then_rest comments i :
  slice comments i (i + BATCH) ++ skipn (i + BATCH) comments = skipn i comments.
Proof.
  unfold slice. replace (i + BATCH - i) with BATCH by lia.
  rewrite (Nat.add_comm i), <- skipn_skipn. apply firstn_skipn.
Qed.

Lemma chunk_loop_concat comments i chunks :
  concat (chunk_loop comments i chunks) = concat chunks ++ skipn i comments.
Proof.
  funelim (chunk_loop comments i chunks).
  - rewrite H. rewrite concat_app. simpl. rewrite app_nil_r, <- app_assoc.
    f_equal. apply slice_then_rest.
  - rewrite skipn_all2 by lia. now rewrite app_nil_r.
Qed.

Lemma ceil_div_step n : 0 < n -> ceil_div n BATCH = S (ceil_div (n - BATCH) BATCH).
Proof.
  unfold ceil_div, BATCH. intros Hn.
  destruct (le_lt_dec 100 n) as [Hge | Hlt].
  - replace (n + (100 - 1)) with ((n - 100 + (100 - 1)) + 1 * 100) by lia.
    rewrite Nat.div_add by lia. lia.
  - replace (n - 100) with 0 by lia.
    rewrite (Nat.div_small (0 + _)) by lia.
    assert (H : (n + (100 - 1)) / 100 = 1).
    { symmetry. apply Nat.div_unique with (r := n - 1); lia. }
    exact H.
Qed.

Lemma chunk_loop_length comments i chunks :
  length (chunk_loop comments i chunks)
  = length chunks + ceil_div (length comments - i) BATCH.
Proof.
  funelim (chunk_loop comments i chunks).
  - rewrite H. rewrite length_app. cbn [length].
    rewrite (ceil_div_step (n := length comments - i)) by lia.
    replace (length comments - (i + BATCH)) with (length comments - i - BATCH)
      by lia.
    lia.
  - replace (length comments - i) with 0 by lia. cbn. lia.
Qed.

Lemma chunk_loop_sizes comments i chunks :
  Forall (fun c => 1 <= length c <= BATCH) chunks ->
  Forall (fun c => 1 <= length c <= BATCH) (chunk_loop comments i chunks).
Proof.
  funelim (chunk_loop comments i chunks); intros Hc.
  - apply H. apply Forall_app. split; [exact Hc |].
    constructor; [| constructor].
    rewrite slice_length. unfold BATCH. lia.
  - exact Hc.
Qed.

Lemma split_chunks_length comments :
  length (split_chunks comments) = ceil_div (length comments) BATCH.
Proof.
  unfold split_chunks. rewrite chunk_loop_length. cbn [length].
  now rewrite Nat.sub_0_r.
Qed.

Lemma split_chunks_nonempty comments :
  comments <> [] -> 1 <= length (split_chunks comments).
Proof.
  intros Hne. rewrite split_chunks_length, ceil_div_step; [lia |].
  destruct comments; [congruence | cbn; lia].
Qed.

End ChunkerFacts.

(** [ceil_div a b] is the ceiling of [a / b]: the least [n] with
    [a <= n * b]. *)
Lemma ceil_div_is_ceiling a b n :
  0 < b -> (Chunker.ceil_div a b <= n <-> a <= n * b).
Proof.
  intros Hb. unfold Chunker.ceil_div.
  pose proof (Nat.div_mod_eq (a + (b - 1)) b) as E.
  pose proof (Nat.mod_upper_bound (a + (b - 1)) b ltac:(lia)) as R.
  remember ((a + (b - 1)) / b) as q. remember ((a + (b - 1)) mod b) as r.
  split; intros H; nia.
Qed.

(** C1. For a comment sequence of length [L > 0] the chunking loop yields
    exactly [ceil (L / 100)] chunks, every chunk holds at least one and at
    most 100 comments, and the chunks concatenated in order are the input
    sequence. *)
Theorem C1_chunker_partitions_input (A : Type) (comments : list A) :
  0 < length comments ->
  length (Chunker.split_chunks comments)
    = Chunker.ceil_div (length comments) 100
  /\ Forall (fun c => 1 <= length c <= 100) (Chunker.split_chunks comments)
  /\ concat (Chunker.split_chunks comments) = comments.
Proof.
  intros _. repeat split; unfold Chunker.split_chunks.
  - apply split_chunks_length.
  - exact (chunk_loop_sizes comments 0 (Forall_nil _)).
  - rewrite chunk_loop_concat. reflexivity.
Qed.

Lemma C1_chunker_partitions_input_witness :
  let comments := seq 0 250 in
  0 < length comments
  /\ length (Chunker.split_chunks comments) = 3
  /\ Forall (fun c => 1 <= length c <= 100) (Chunker.split_chunks comments)
  /\ concat (Chunker.split_chunks comments) = comments.
Proof.
  intros comments.
  assert (H : 0 < length comments) by (vm_compute; lia).
  split; [exact H |].
  exact (C1_chunker_partitions_input comments H).
Defined.

(** ** Numbers: the length of a non-empty array is a non-zero number *)

Module NumberFacts.

Import Number.

Lemma digits2_pos_bounds (p : positive) :
  (2 ^ (Zpos (digits2_pos p) - 1) <= Zpos p < 2 ^ Zpos (digits2_pos p))%Z.
Proof.
  induction p as [p IH | p IH |]; cbn [digits2_pos].
  - rewrite Pos2Z.inj_succ.
    replace (Z.succ (Zpos (digits2_pos p)) - 1)%Z
      with (Z.succ (Zpos (digits2_pos p) - 1)) by lia.
    rewrite !Z.pow_succ_r by lia. lia.
  - rewrite Pos2Z.inj_succ.
    replace (Z.succ (Zpos (digits2_pos p)) - 1)%Z
      with (Z.succ (Zpos (digits2_pos p) - 1)) by lia.
    rewrite !Z.pow_succ_r by lia. lia.
  - cbn. lia.
Qed.

Lemma iter_pos_nat {T : Type} (f : T -> T) (p : positive) (x : T) :
  iter_pos f p x = Nat.iter (Pos.to_nat p) f x.
Proof.
  revert x. induction p as [p IH | p IH |]; intros x; cbn [iter_pos].
  - rewrite !IH, Pos2Nat.inj_xI.
    replace (S (2 * Pos.to_nat p)) with (Pos.to_nat p + S (Pos.to_nat p))
      by lia.
    rewrite Nat.iter_add, Nat.iter_succ_r. reflexivity.
  - rewrite !IH, Pos2Nat.inj_xO.
    replace (2 * Pos.to_nat p) with (Pos.to_nat p + Pos.to_nat p) by lia.
    rewrite Nat.iter_add. reflexivity.
  - reflexivity.
Qed.

Lemma shr_1_halves (mrs : shr_record) :
  (0 <= shr_m mrs)%Z ->
  (shr_m (shr_1 mrs) = shr_m mrs / 2 /\ 0 <= shr_m (shr_1 mrs))%Z.
Proof.
  destruct mrs as [m r s]. cbn [shr_m]. intros Hm.
  rewrite <- Z.div2_div.
  destruct m as [| [p | p |] | p]; cbn; try lia.
Qed.

Lemma shr_iter_divides (k : nat) (mrs : shr_record) :
  (0 <= shr_m mrs)%Z ->
  (shr_m (Nat.iter k shr_1 mrs) = shr_m mrs / 2 ^ Z.of_nat k
   /\ 0 <= shr_m (Nat.iter k shr_1 mrs))%Z.
Proof.
  intros Hm. induction k as [| k [IHeq IHpos]].
  - cbn. rewrite Z.div_1_r. auto.
  - change (Nat.iter (S k) shr_1 mrs) with (shr_1 (Nat.iter k shr_1 mrs)).
    destruct (shr_1_halves _ IHpos) as [E P].
    split; [| exact P].
    rewrite E, IHeq, Nat2Z.inj_succ, Z.pow_succ_r by lia.
    rewrite Z.div_div by lia. f_equal. lia.
Qed.

Lemma shr_record_of_loc_m (m : Z) (l : location) :
  shr_m (shr_record_of_loc m l) = m.
Proof. destruct l as [| []]; reflexivity. Qed.

(** Shifting a positive mantissa down to the format's precision leaves a
    positive mantissa, as long as the exponent is not below [emin]. *)
Lemma shr_fexp_pos (m e : Z) (l : location) :
  (0 < m)%Z -> (emin prec emax <= e)%Z ->
  (0 < shr_m (fst (shr_fexp prec emax m e l))
   /\ emin prec emax <= snd (shr_fexp prec emax m e l))%Z.
Proof.
  intros Hm He. unfold shr_fexp, shr.
  destruct m as [| p | p]; try lia.
  cbn [Zdigits2].
  pose proof (digits2_pos_bounds p) as [Hlo _].
  set (d := Zpos (digits2_pos p)) in *.
  destruct (fexp prec emax (d + e) - e)%Z as [| k | k] eqn:Hn;
    cbn [fst snd]; rewrite ?shr_record_of_loc_m; try (split; lia).
  assert (Hk : (Zpos k <= d - 1)%Z).
  { unfold fexp, emin, prec, emax in *. lia. }
  rewrite iter_pos_nat.
  destruct (shr_iter_divides (Pos.to_nat k) (shr_record_of_loc (Zpos p) l))
    as [E _]; [rewrite shr_record_of_loc_m; lia |].
  rewrite E, shr_record_of_loc_m, positive_nat_Z.
  split; [| lia].
  apply Z.div_str_pos. split; [apply Z.pow_pos_nonneg; lia |].
  transitivity (2 ^ (d - 1))%Z; [| exact Hlo].
  apply Z.pow_le_mono_r; lia.
Qed.

Lemma round_nearest_even_pos (m : Z) (l : location) :
  (0 < m)%Z -> (0 < round_nearest_even m l)%Z.
Proof.
  intros Hm. unfold round_nearest_even.
  destruct l as [| []]; try destruct (Z.even m); lia.
Qed.

Lemma binary_round_aux_nonzero (s : bool) (m e : Z) (l : location) :
  (0 < m)%Z -> (emin prec emax <= e)%Z ->
  nonzero (binary_round_aux prec emax s m e l).
Proof.
  intros Hm He. unfold binary_round_aux.
  pose proof (shr_fexp_pos l Hm He) as [H1 H2].
  destruct (shr_fexp prec emax m e l) as [mrs' e']. cbn [fst snd] in H1, H2.
  pose proof (round_nearest_even_pos (loc_of_shr_record mrs') H1) as H3.
  pose proof (shr_fexp_pos loc_Exact H3 H2) as [H4 _].
  destruct (shr_fexp prec emax _ e' loc_Exact) as [mrs'' e''].
  cbn [fst] in H4.
  destruct (shr_m mrs'') as [| q | q]; try lia.
  destruct (e'' <=? emax - prec)%Z; split; reflexivity.
Qed.

Lemma of_Z_nonzero (z : Z) : (0 < z)%Z -> nonzero (of_Z z).
Proof.
  intros Hz. destruct z as [| p | p]; try lia.
  unfold of_Z, binary_normalize, binary_round.
  destruct (shl_align p 0 _) as [mz ez] eqn:Hs.
  apply binary_round_aux_nonzero; [lia |].
  unfold shl_align in Hs.
  destruct (_ - 0)%Z eqn:Hd in Hs; inversion Hs; subst;
    unfold fexp, emin, prec, emax in *; lia.
Qed.

Lemma of_nat_nonzero (n : nat) : 1 <= n -> nonzero (of_nat n).
Proof. intros Hn. apply of_Z_nonzero. lia. Qed.

End NumberFacts.

(** ** [Promise.all] *)

Section PromiseFacts.

Context {A : Type}.

Lemma dispatch_all_length (tasks : list (M A)) (log : list jstring) :
  length (fst (dispatch_all tasks log)) = length tasks.
Proof.
  revert log. induction tasks as [| t rest IH]; intros log; cbn.
  - reflexivity.
  - destruct (t log) as [r log1]. specialize (IH log1).
    destruct (dispatch_all rest log1) as [rs log2]. cbn in *. now rewrite IH.
Qed.

Variable first : list nat -> nat.

Lemma rejections_none (i : nat) (rs : list (result A)) :
  rejections i rs = [] -> rs = map Ok (fulfilled rs).
Proof.
  revert i. induction rs as [| [a | e] rest IH]; intros i; cbn.
  - reflexivity.
  - intros E. now rewrite <- (IH (S i) E).
  - discriminate.
Qed.

Lemma rejections_In (i j : nat) (e : error) (rs : list (result A)) :
  In (j, e) (rejections i rs) -> In (Throw e) rs.
Proof.
  revert i. induction rs as [| [a | e0] rest IH]; intros i; cbn.
  - tauto.
  - intros H. right. now apply (IH (S i)).
  - intros [E | H]; [left; congruence | right; now apply (IH (S i))].
Qed.

Lemma rejections_of_values (i : nat) (l : list A) :
  rejections i (map Ok l) = [] /\ fulfilled (map Ok l) = l.
Proof.
  revert i. induction l as [| a l IH]; intros i; cbn; [auto |].
  destruct (IH (S i)) as [E1 E2]. now rewrite E1, E2.
Qed.

(** When no task rejects, the values come back in task order. *)
Lemma settle_all_values (l : list A) : settle_all first (map Ok l) = Ok l.
Proof.
  unfold settle_all. destruct (rejections_of_values 0 l) as [E1 E2].
  now rewrite E1, E2.
Qed.

Lemma settle_all_Ok_inv (rs : list (result A)) (l : list A) :
  settle_all first rs = Ok l -> rs = map Ok l.
Proof.
  unfold settle_all.
  destruct (rejections 0 rs) as [| [i e] others] eqn:R; [| discriminate].
  intros E. inversion E; subst. now apply rejections_none with (i := 0).
Qed.

(** A rejection of [Promise.all] is the rejection of one of its tasks. *)
Lemma settle_all_Throw_In (rs : list (result A)) (e : error) :
  settle_all first rs = Throw e -> In (Throw e) rs.
Proof.
  unfold settle_all.
  destruct (rejections 0 rs) as [| [i e0] others] eqn:R; [discriminate |].
  cbv zeta.
  destruct (find _ others) as [[j e'] |] eqn:F; intros E; inversion E; subst.
  - apply find_some in F as [F _].
    apply rejections_In with (i := 0) (j := j). rewrite R. now right.
  - apply rejections_In with (i := 0) (j := i). rewrite R. now left.
Qed.

(** When every task that rejects rejects with the same error, that error
    is the outcome, whichever task is first. *)
Lemma settle_all_same (rs : list (result A)) (e : error) :
  In (Throw e) rs ->
  (forall e', In (Throw e') rs -> e' = e) ->
  settle_all first rs = Throw e.
Proof.
  intros Hin Hsame. destruct (settle_all first rs) as [l | e'] eqn:E.
  - apply settle_all_Ok_inv in E. rewrite E in Hin.
    apply in_map_iff in Hin as (a & Ha & _). discriminate.
  - apply settle_all_Throw_In in E. now rewrite (Hsame e' E).
Qed.

Lemma settle_all_length (rs : list (result A)) (l : list A) :
  settle_all first rs = Ok l -> length l = length rs.
Proof.
  intros E. apply settle_all_Ok_inv in E. rewrite E. now rewrite length_map.
Qed.

Lemma Promise_all_length (tasks : list (M A)) (log log' : list jstring)
  (l : list A) :
  Promise_all first tasks log = (Ok l, log') -> length l = length tasks.
Proof.
  unfold Promise_all. intros E.
  pose proof (dispatch_all_length tasks log) as L.
  destruct (dispatch_all tasks log) as [rs log1]. cbn in L.
  inversion E; subst. rewrite <- L. now apply settle_all_length.
Qed.

End PromiseFacts.

(** ** The input guard *)

(** C7. A request whose [comments] field is absent, or is an empty list,
    is answered with status 400 and the body
    [{success:false, error:"No comments"}], and no prompt is sent to the
    model. *)
Theorem C7_no_comments_rejected (rt : runtime) (fields : props) :
  lookup (js "comments") fields = None
  \/ (exists xs, lookup (js "comments") fields = Some (VArr [] xs)) ->
  analyze rt (VObj fields) = (Ok (failure 400 (js "No comments")), []).
Proof.
  intros [Habsent | [xs Hempty]];
    unfold analyze, handler, try_catch, bindM, lift, get_prop.
  - rewrite Habsent. reflexivity.
  - rewrite Hempty. reflexivity.
Qed.

Lemma C7_no_comments_rejected_witness :
  analyze TestDouble.rt (VObj [ (js "video", VStr (js "abc")) ])
    = (Ok (failure 400 (js "No comments")), [])
  /\ analyze TestDouble.rt (TestDouble.request 0)
    = (Ok (failure 400 (js "No comments")), []).
Proof.
  split.
  - apply C7_no_comments_rejected. left. reflexivity.
  - apply C7_no_comments_rejected. right. exists []. reflexivity.
Defined.

(** ** The divisor of the averages *)

(** C10. A non-empty comment list is cut into at least one chunk, the
    chunk stage returns one PartialResult per chunk, and so the number the
    three sums are divided by, [partials.length], is not zero. *)
Theorem C10_divisor_is_not_zero (rt : runtime) (cs : list value) (xs : props) :
  cs <> [] ->
  exists chunks,
    chunking rt (VArr cs xs) = Ok chunks
    /\ 1 <= length chunks
    /\ forall log log' partials,
         Promise_all (first_rejected rt) (map (runChunk rt) chunks) log
           = (Ok partials, log') ->
         length partials = length chunks
         /\ 1 <= length partials
         /\ Number.nonzero (Number.of_nat (length partials)).
Proof.
  intros Hne. eexists. split; [reflexivity |].
  assert (Hchunks :
    1 <= length (map (fun c => VArr c []) (Chunker.split_chunks cs))).
  { rewrite length_map. now apply split_chunks_nonempty. }
  split; [exact Hchunks |].
  intros log log' partials E.
  apply Promise_all_length in E. rewrite length_map in E.
  split; [exact E |]. split; [lia |].
  apply NumberFacts.of_nat_nonzero. lia.
Qed.

Lemma C10_divisor_is_not_zero_witness :
  exists chunks,
    chunking TestDouble.rt (TestDouble.comments 150) = Ok chunks
    /\ 1 <= length chunks
    /\ forall log log' partials,
         Promise_all (first_rejected TestDouble.rt)
           (map (runChunk TestDouble.rt) chunks) log
           = (Ok partials, log') ->
         length partials = length chunks
         /\ 1 <= length partials
         /\ Number.nonzero (Number.of_nat (length partials)).
Proof.
  apply C10_divisor_is_not_zero. discriminate.
Defined.

(** ** Objects as property lists *)

Lemma jstring_eqb_eq (a b : jstring) : jstring_eqb a b = true <-> a = b.
Proof.
  unfold jstring_eqb. destruct (list_eq_dec N.eq_dec a b); split;
    congruence.
Qed.

Lemma jstring_eqb_refl (a : jstring) : jstring_eqb a a = true.
Proof. now apply jstring_eqb_eq. Qed.

Lemma jstring_eqb_neq (a b : jstring) : a <> b -> jstring_eqb a b = false.
Proof.
  intros Hne. destruct (jstring_eqb a b) eqn:E; [| reflexivity].
  apply jstring_eqb_eq in E. contradiction.
Qed.

Lemma lookup_assign_same (k : jstring) (v : value) (ps : props) :
  lookup k (assign k v ps) = Some v.
Proof.
  induction ps as [| [k' v'] rest IH]; cbn.
  - now rewrite jstring_eqb_refl.
  - destruct (jstring_eqb k k') eqn:E; cbn; rewrite E; auto.
Qed.

Lemma lookup_assign_other (k k' : jstring) (v : value) (ps : props) :
  k <> k' -> lookup k (assign k' v ps) = lookup k ps.
Proof.
  intros Hne. induction ps as [| [k'' v''] rest IH]; cbn.
  - now rewrite jstring_eqb_neq.
  - destruct (jstring_eqb k' k'') eqn:E; cbn.
    + apply jstring_eqb_eq in E. subst k''.
      now rewrite jstring_eqb_neq.
    + now rewrite IH.
Qed.

Lemma other_props_assign (k : jstring) (v : value) (ps : props) :
  is_percentage_key k = true ->
  filter (fun kv => negb (is_percentage_key (fst kv))) (assign k v ps)
  = filter (fun kv => negb (is_percentage_key (fst kv))) ps.
Proof.
  intros Hk. induction ps as [| [k' v'] rest IH]; cbn.
  - now rewrite Hk.
  - destruct (jstring_eqb k k') eqn:E; cbn.
    + apply jstring_eqb_eq in E. subst k'. now rewrite Hk.
    + now rewrite IH.
Qed.

(** ** The aggregation *)

Section AggregationFacts.

Variable rt : runtime.

Lemma js_add_numbers (a b : number) :
  js_add rt (VNum a) (VNum b) = Ok (VNum (Number.add a b)).
Proof. reflexivity. Qed.

Lemma js_div_numbers (a b : number) :
  js_div rt (VNum a) (VNum b) = Ok (Number.div a b).
Proof. reflexivity. Qed.

Lemma get_prop_number (k : jstring) (p : value) :
  has_number k p ->
  exists x, number_field k p = Some x /\ get_prop rt p k = Ok (VNum x).
Proof.
  unfold has_number, number_field, get_prop.
  destruct p as [| | | | | |ps]; try congruence.
  destruct (lookup k ps) as [[| | | x | | |] |]; try congruence.
  intros _. now exists x.
Qed.

Lemma reduce_numbers (k : jstring) (partials : list value) (acc : number) :
  Forall (has_number k) partials ->
  reduce (fun s p => x <- get_prop rt p k ;; js_add rt s x) partials (VNum acc)
  = Ok (VNum (fold_left Number.add (field_values k partials) acc)).
Proof.
  intros H. revert acc. induction H as [| p rest Hp _ IH]; intros acc.
  - reflexivity.
  - destruct (get_prop_number Hp) as [x [Ex Eg]].
    cbn [reduce field_values map fold_left]. rewrite Eg, Ex.
    cbn [bind]. rewrite js_add_numbers. cbn [bind]. apply IH.
Qed.

Lemma average_numbers (k : jstring) (partials : list value) :
  Forall (has_number k) partials ->
  average rt k partials = Ok (mean (field_values k partials)).
Proof.
  intros H. unfold average. rewrite (reduce_numbers Number.zero H).
  cbn [bind]. rewrite js_div_numbers. unfold mean, field_values.
  now rewrite length_map.
Qed.

Lemma numeric_partial_fields (p : value) :
  numeric_partial p = true ->
  has_number (js "pos") p /\ has_number (js "neg") p
  /\ has_number (js "neu") p /\ exists ps, p = VObj ps.
Proof.
  unfold numeric_partial, has_number. intros H.
  destruct (number_field (js "pos") p) eqn:E1; [| discriminate].
  destruct (number_field (js "neg") p) eqn:E2; [| discriminate].
  destruct (number_field (js "neu") p) eqn:E3; [| discriminate].
  repeat split; try congruence.
  destruct p; try discriminate. eauto.
Qed.

(** Reading a list field of an object never throws. *)
Lemma collect_objects (k : jstring) (partials : list value) :
  Forall (fun p => exists ps, p = VObj ps) partials ->
  exists l, collect rt k partials = Ok l.
Proof.
  unfold collect. induction 1 as [| p rest [ps ->] _ [l IH]].
  - now exists [].
  - cbn [flatMap get_prop bind]. rewrite IH. cbn [bind]. eauto.
Qed.

Lemma aggregate_numeric (partials : list value) :
  Forall (fun p => numeric_partial p = true) partials ->
  exists agg,
    aggregate_partials rt partials = Ok agg
    /\ posAvg agg = mean (field_values (js "pos") partials)
    /\ negAvg agg = mean (field_values (js "neg") partials)
    /\ neuAvg agg = mean (field_values (js "neu") partials).
Proof.
  intros H.
  assert (Hpos : Forall (has_number (js "pos")) partials).
  { eapply Forall_impl; [| exact H]. intros p Hp.
    now destruct (numeric_partial_fields p Hp). }
  assert (Hneg : Forall (has_number (js "neg")) partials).
  { eapply Forall_impl; [| exact H]. intros p Hp.
    now destruct (numeric_partial_fields p Hp) as (_ & ? & _). }
  assert (Hneu : Forall (has_number (js "neu")) partials).
  { eapply Forall_impl; [| exact H]. intros p Hp.
    now destruct (numeric_partial_fields p Hp) as (_ & _ & ? & _). }
  assert (Hobj : Forall (fun p => exists ps, p = VObj ps) partials).
  { eapply Forall_impl; [| exact H]. intros p Hp.
    now destruct (numeric_partial_fields p Hp) as (_ & _ & _ & ?). }
  destruct (collect_objects (js "praise") Hobj) as [pr Epr].
  destruct (collect_objects (js "pain") Hobj) as [pa Epa].
  destruct (collect_objects (js "themes") Hobj) as [th Eth].
  unfold aggregate_partials.
  rewrite (average_numbers Hpos), (average_numbers Hneg),
    (average_numbers Hneu), Epr, Epa, Eth.
  cbn [bind]. eexists. split; [reflexivity |]. cbn. auto.
Qed.

End AggregationFacts.

(** C3. For a non-empty list of [K] PartialResults with numeric [pos],
    [neg] and [neu], the aggregate's [posAvg], [negAvg] and [neuAvg] are
    the sum of the field over the list divided by [K], sum and quotient
    being those of JavaScript numbers: every record counts once, whatever
    the size of the chunk it came from. *)
Theorem C3_averages_are_unweighted_means (rt : runtime)
  (partials : list value) :
  partials <> [] ->
  Forall (fun p => numeric_partial p = true) partials ->
  exists agg,
    aggregate_partials rt partials = Ok agg
    /\ posAvg agg
       = Number.div
           (fold_left Number.add (field_values (js "pos") partials) Number.zero)
           (Number.of_nat (length partials))
    /\ negAvg agg
       = Number.div
           (fold_left Number.add (field_values (js "neg") partials) Number.zero)
           (Number.of_nat (length partials))
    /\ neuAvg agg
       = Number.div
           (fold_left Number.add (field_values (js "neu") partials) Number.zero)
           (Number.of_nat (length partials)).
Proof.
  intros _ H. destruct (aggregate_numeric rt H) as (agg & E & E1 & E2 & E3).
  exists agg. unfold mean, field_values in *. rewrite !length_map in *. auto.
Qed.

Lemma C3_averages_are_unweighted_means_witness :
  exists agg,
    aggregate_partials TestDouble.rt
      [TestDouble.partial 60 30 10; TestDouble.partial 40 50 10] = Ok agg
    /\ posAvg agg = Number.of_Z 50
    /\ negAvg agg = Number.of_Z 40
    /\ neuAvg agg = Number.of_Z 10.
Proof.
  destruct (@C3_averages_are_unweighted_means TestDouble.rt
              [TestDouble.partial 60 30 10; TestDouble.partial 40 50 10])
    as (agg & E & E1 & E2 & E3).
  - discriminate.
  - repeat constructor.
  - exists agg. split; [exact E |].
    rewrite E1, E2, E3. repeat split; vm_compute; reflexivity.
Defined.

(** ** The overwrite of the percentages *)

Section OverwriteFacts.

Variable rt : runtime.

Lemma percentage_keys_distinct :
  js "positivePercentage" <> js "negativePercentage"
  /\ js "positivePercentage" <> js "neutralPercentage"
  /\ js "negativePercentage" <> js "neutralPercentage".
Proof. repeat split; discriminate. Qed.

(** What [insert_numbers] does to an array or an object: three
    assignments to its named properties. *)
Lemma insert_numbers_assigns (agg : aggregate) (final : value) :
  is_primitive final = false ->
  exists report,
    insert_numbers rt agg final = Ok report
    /\ elements report = elements final
    /\ is_primitive report = false
    /\ own_props report
       = assign (js "neutralPercentage")
           (VNum (Number.Math_round (neuAvg agg)))
           (assign (js "negativePercentage")
              (VNum (Number.Math_round (negAvg agg)))
              (assign (js "positivePercentage")
                 (VNum (Number.Math_round (posAvg agg)))
                 (own_props final))).
Proof.
  destruct final; try discriminate; intros _;
    (eexists; split; [reflexivity | repeat split]).
Qed.

Lemma insert_numbers_needs_object (agg : aggregate) (final report : value) :
  insert_numbers rt agg final = Ok report -> is_primitive final = false.
Proof. destruct final; try discriminate; reflexivity. Qed.

Lemma get_prop_own (v : value) (k : jstring) :
  is_primitive v = false ->
  get_prop rt v k
  = Ok (match lookup k (own_props v) with Some x => x | None => VUndef end).
Proof. destruct v; try discriminate; reflexivity. Qed.

End OverwriteFacts.

(** ** The frame of the overwrite *)

Section FrameFacts.

Variable rt : runtime.

Lemma not_percentage_key (k : jstring) :
  is_percentage_key k = false ->
  k <> js "positivePercentage" /\ k <> js "negativePercentage"
  /\ k <> js "neutralPercentage".
Proof.
  unfold is_percentage_key. intros H.
  apply orb_false_elim in H as [H H3]. apply orb_false_elim in H as [H1 H2].
  repeat split; intros ->; rewrite jstring_eqb_refl in *; discriminate.
Qed.

(** The overwrite leaves the elements alone, and every property other
    than the three percentages: same keys, same values, same order. *)
Lemma insert_numbers_frame (agg : aggregate) (final report : value) :
  insert_numbers rt agg final = Ok report ->
  other_props report = other_props final
  /\ elements report = elements final
  /\ forall k, is_percentage_key k = false ->
               get_prop rt report k = get_prop rt final k.
Proof.
  intros E. pose proof (insert_numbers_needs_object _ _ _ E) as Hobj.
  destruct (insert_numbers_assigns rt agg final Hobj)
    as (report' & E' & Hel & Hp & Eo).
  rewrite E in E'. inversion E'; subst report'. clear E'.
  split; [| split; [exact Hel |]].
  - unfold other_props. rewrite Eo.
    now rewrite !other_props_assign by reflexivity.
  - intros k Hk. destruct (not_percentage_key k Hk) as (N1 & N2 & N3).
    rewrite (get_prop_own rt report k Hp), (get_prop_own rt final k Hobj), Eo.
    now rewrite !lookup_assign_other by assumption.
Qed.

(** A request answered with status 200 went through every stage. *)
Lemma analyze_success_inv (req : value) (r : response) (calls : list jstring) :
  analyze rt req = (Ok r, calls) -> status r = 200 ->
  exists partials agg log raw final report,
    aggregate_partials rt partials = Ok agg
    /\ generateContent rt (length log)
         (buildPremiumPrompt rt (aggregate_object agg)) = Ok raw
    /\ JSON_parse rt (clean raw) = Ok final
    /\ insert_numbers rt agg final = Ok report
    /\ calls = log ++ [buildPremiumPrompt rt (aggregate_object agg)]
    /\ r = success report.
Proof.
  unfold analyze, handler, runFinalPremium, generate, try_catch, bindM,
    lift, ret.
  intros E Hs.
  destruct (get_prop rt req (js "comments")) as [given | e];
    [| inversion E; subst; discriminate].
  destruct (get_length rt _) as [len | e];
    [| inversion E; subst; discriminate].
  destruct (negb (ToBoolean len)); [inversion E; subst; discriminate |].
  destruct (chunking rt _) as [chunks | e];
    [| inversion E; subst; discriminate].
  destruct (Promise_all _ _) as [[partials | e] log];
    [| inversion E; subst; discriminate].
  destruct (aggregate_partials rt partials) as [agg | e] eqn:Eagg;
    [| inversion E; subst; discriminate].
  destruct (generateContent rt _ _) as [raw | e] eqn:Egen;
    [| inversion E; subst; discriminate].
  destruct (JSON_parse rt (clean raw)) as [final | e] eqn:Eparse;
    [| inversion E; subst; discriminate].
  destruct (insert_numbers rt agg final) as [report | e] eqn:Eins;
    [| inversion E; subst; discriminate].
  inversion E; subst.
  exists partials, agg, log, raw, final, report.
  repeat split; assumption || reflexivity.
Qed.

(** The route answers every request: its [catch] handles whatever the
    body throws. *)
Lemma handler_never_throws (req : value) (log : list jstring) :
  exists r log', handler rt req log = (Ok r, log').
Proof.
  unfold handler, try_catch.
  match goal with |- context [match ?m log with _ => _ end] =>
    destruct (m log) as [[r | e] log'] end; unfold ret; eauto.
Qed.

End FrameFacts.

(** C9. In a request answered with status 200 the report sent back is the
    object the synthesis-stage parse returned with only
    [positivePercentage], [negativePercentage] and [neutralPercentage]
    assigned: every other property, the eight narrative fields of the
    prompt schema among them, has the value it was parsed with, in the
    same place. *)
Theorem C9_other_fields_pass_through (rt : runtime) (req : value)
  (r : response) (calls : list jstring) :
  analyze rt req = (Ok r, calls) -> status r = 200 ->
  exists log prompt raw final report,
    calls = log ++ [prompt]
    /\ generateContent rt (length log) prompt = Ok raw
    /\ JSON_parse rt (clean raw) = Ok final
    /\ r = success report
    /\ other_props report = other_props final
    /\ elements report = elements final
    /\ (forall k, is_percentage_key k = false ->
                  get_prop rt report k = get_prop rt final k)
    /\ Forall (fun k => get_prop rt report k = get_prop rt final k)
         NARRATIVE_KEYS.
Proof.
  intros E Hs.
  destruct (analyze_success_inv rt req E Hs)
    as (partials & agg & log & raw & final & report
        & _ & Egen & Eparse & Eins & Ecalls & Er).
  destruct (insert_numbers_frame rt agg final Eins) as (Fp & Fe & Fk).
  exists log, (buildPremiumPrompt rt (aggregate_object agg)), raw, final, report.
  repeat split; try assumption.
  unfold NARRATIVE_KEYS. repeat constructor; apply Fk; reflexivity.
Qed.

Lemma C9_other_fields_pass_through_witness :
  exists log prompt raw final report,
    snd (analyze TestDouble.rt (TestDouble.request 150)) = log ++ [prompt]
    /\ generateContent TestDouble.rt (length log) prompt = Ok raw
    /\ JSON_parse TestDouble.rt (clean raw) = Ok final
    /\ fst (analyze TestDouble.rt (TestDouble.request 150))
       = Ok (success report)
    /\ other_props report = other_props final
    /\ elements report = elements final
    /\ (forall k, is_percentage_key k = false ->
                  get_prop TestDouble.rt report k
                  = get_prop TestDouble.rt final k)
    /\ Forall (fun k => get_prop TestDouble.rt report k
                        = get_prop TestDouble.rt final k)
         NARRATIVE_KEYS.
Proof.
  pose (r := success (VObj
      [ (js "positivePercentage", VNum (Number.of_Z 30));
        (js "negativePercentage", VNum (Number.of_Z 15));
        (js "neutralPercentage", VNum (Number.of_Z 5));
        (js "sentimentSummary_premium", VStr (js "Warm."));
        (js "actionableInsight_premium", VStr (js "Post weekly.")) ])).
  assert (E : analyze TestDouble.rt (TestDouble.request 150)
              = (Ok r, snd (analyze TestDouble.rt (TestDouble.request 150))))
    by (vm_compute; reflexivity).
  destruct (@C9_other_fields_pass_through TestDouble.rt
              (TestDouble.request 150) r _ E eq_refl)
    as (log & prompt & raw & final & report & H1 & H2 & H3 & H4 & H5).
  exists log, prompt, raw, final, report.
  split; [exact H1 |]. split; [exact H2 |]. split; [exact H3 |].
  split; [| exact H5].
  rewrite E. cbn [fst]. now rewrite H4.
Defined.

(** ** Missing fields *)

(** A record without the list field [k] adds nothing to the collected
    list. *)
Lemma collect_missing_list (rt : runtime) (k : jstring) (ps : props)
  (rest : list value) :
  lookup k ps = None ->
  collect rt k (VObj ps :: rest) = collect rt k rest.
Proof.
  intros E. unfold collect. cbn [flatMap get_prop bind]. rewrite E.
  cbn [or_empty ToBoolean bind].
  destruct (flatMap _ rest); reflexivity.
Qed.

Lemma fold_add_NaN (xs : list number) :
  fold_left Number.add xs Number.NaN = Number.NaN.
Proof. induction xs as [| x xs IH]; cbn; [reflexivity | exact IH]. Qed.

Lemma reduce_from_NaN (rt : runtime) (k : jstring) (partials : list value) :
  Forall (has_number k) partials ->
  reduce (fun s p => x <- get_prop rt p k ;; js_add rt s x) partials
    (VNum Number.NaN) = Ok (VNum Number.NaN).
Proof.
  intros H. rewrite (reduce_numbers rt Number.NaN H).
  now rewrite fold_add_NaN.
Qed.

(** One record without the numeric field [k] among numeric ones is
    enough to make the average [NaN]. *)
Lemma missing_number_poisons_average (rt : runtime) (k : jstring)
  (before after : list value) (ps : props) :
  Forall (has_number k) before -> Forall (has_number k) after ->
  lookup k ps = None ->
  average rt k (before ++ VObj ps :: after) = Ok Number.NaN.
Proof.
  intros Hb Ha Hk. unfold average.
  assert (E : forall acc,
    reduce (fun s p => x <- get_prop rt p k ;; js_add rt s x)
      (before ++ VObj ps :: after) (VNum acc) = Ok (VNum Number.NaN)).
  { induction Hb as [| p before Hp _ IH]; intros acc.
    - cbn [app reduce get_prop]. rewrite Hk. cbn [bind].
      replace (js_add rt (VNum acc) VUndef) with (Ok (VNum Number.NaN) : result value)
        by (destruct acc; reflexivity).
      cbn [bind]. now apply reduce_from_NaN.
    - destruct (get_prop_number rt Hp) as [x [_ Eg]].
      cbn [app reduce]. rewrite Eg. cbn [bind].
      rewrite js_add_numbers. cbn [bind]. apply IH. }
  rewrite E. cbn [bind]. reflexivity.
Qed.

(** C6. A record that parsed without [pos], [neg] and [neu] is not counted
    as zero: [0 + undefined] is [NaN], and so are the three averages.
    Only the list fields are coalesced, by [||[]]. *)
Theorem C6_missing_number_makes_average_NaN (rt : runtime) :
  aggregate_partials rt
    [ TestDouble.partial 60 30 10;
      VObj [ (js "praise", VArr [VStr (js "great")] []) ] ]
  = Ok {| posAvg := Number.NaN; negAvg := Number.NaN; neuAvg := Number.NaN;
          praise := [VStr (js "great")]; pain := []; themes := [] |}.
Proof. reflexivity. Qed.

(** ** Fence stripping and trimming *)

Section CleanFacts.

Import Regex.

Lemma matches_fence (s : jstring) :
  matches_at FENCE s = true <->
  exists t, s = BACKTICK :: BACKTICK :: BACKTICK :: t.
Proof.
  split.
  - unfold FENCE.
    destruct s as [| a [| b [| c t]]]; cbn [matches_at];
      rewrite ?andb_false_r; try discriminate.
    unfold lit. intros H. apply andb_prop in H as [Ha H]. apply andb_prop in H as [Hb H].
    apply andb_prop in H as [Hc _].
    apply N.eqb_eq in Ha, Hb, Hc. subst. eauto.
  - intros [t ->]. reflexivity.
Qed.

Lemma remove_fence_at_match (t : jstring) :
  remove_all FENCE (BACKTICK :: BACKTICK :: BACKTICK :: t) = remove_all FENCE t.
Proof. reflexivity. Qed.

Lemma remove_no_match (p : pattern) (c : code_unit) (s : jstring) :
  matches_at p (c :: s) = false ->
  remove_all p (c :: s) = c :: remove_all p s.
Proof. unfold remove_all. cbn [remove_from]. now intros ->. Qed.

(** A back-tick at the head of the output was at the head of the input. *)
Lemma remove_fence_head (t r : jstring) :
  remove_all FENCE t = BACKTICK :: r -> exists t', t = BACKTICK :: t'.
Proof.
  destruct (matches_at FENCE t) eqn:M.
  - apply matches_fence in M as [u ->]. eauto.
  - destruct t as [| c t']; [discriminate |].
    rewrite (remove_no_match _ _ _ M). intros E. inversion E. eauto.
Qed.

Lemma remove_fence_head2 (t r : jstring) :
  remove_all FENCE t = BACKTICK :: BACKTICK :: r ->
  exists t', t = BACKTICK :: BACKTICK :: t'.
Proof.
  destruct (matches_at FENCE t) eqn:M.
  - apply matches_fence in M as [u ->]. eauto.
  - destruct t as [| c t']; [discriminate |].
    rewrite (remove_no_match _ _ _ M). intros E. inversion E as [[Ec Er]].
    apply remove_fence_head in Er as [t'' ->]. eauto.
Qed.

Lemma remove_fence_leaves_none_upto (n : nat) (s : jstring) :
  length s <= n -> occurs FENCE (remove_all FENCE s) = false.
Proof.
  revert s. induction n as [| n IH]; intros s Hn.
  - destruct s; [reflexivity | cbn in Hn; lia].
  - destruct s as [| c s']; [reflexivity |].
    destruct (matches_at FENCE (c :: s')) eqn:M.
    + apply matches_fence in M as [t E]. rewrite E, remove_fence_at_match.
      apply IH. rewrite E in Hn. cbn in Hn. lia.
    + rewrite (remove_no_match _ _ _ M). cbn [occurs].
      rewrite (IH s') by (cbn in Hn; lia). rewrite orb_false_r.
      destruct (matches_at FENCE (c :: remove_all FENCE s')) eqn:M';
        [| reflexivity].
      apply matches_fence in M' as [r E]. inversion E as [[Ec Er]].
      apply remove_fence_head2 in Er as [t' ->].
      rewrite Ec in M. discriminate.
Qed.

Lemma remove_fence_leaves_none (s : jstring) :
  occurs FENCE (remove_all FENCE s) = false.
Proof. now apply remove_fence_leaves_none_upto with (n := length s). Qed.

Lemma matches_fence_json_fence (s : jstring) :
  matches_at FENCE_JSON s = true -> matches_at FENCE s = true.
Proof.
  unfold FENCE_JSON, FENCE.
  destruct s as [| a [| b [| c t]]]; cbn [matches_at];
    rewrite ?andb_false_r; try discriminate.
  intros H. apply andb_prop in H as [Ha H]. apply andb_prop in H as [Hb H].
  apply andb_prop in H as [Hc _]. now rewrite Ha, Hb, Hc.
Qed.

Lemma occurs_fence_json_fence (s : jstring) :
  occurs FENCE s = false -> occurs FENCE_JSON s = false.
Proof.
  induction s as [| c s IH]; cbn [occurs].
  - reflexivity.
  - intros H. apply orb_false_elim in H as [H1 H2].
    rewrite (IH H2), orb_false_r.
    destruct (matches_at FENCE_JSON (c :: s)) eqn:M; [| reflexivity].
    apply matches_fence_json_fence in M. congruence.
Qed.

(** *** Occurrences inside a substring *)

Lemma matches_at_app (p : pattern) (s t : jstring) :
  matches_at p s = true -> matches_at p (s ++ t) = true.
Proof.
  revert s. induction p as [| x p IH]; intros s; [reflexivity |].
  destruct s as [| c s]; cbn; [discriminate |].
  intros H. apply andb_prop in H as [Hc H]. now rewrite Hc, (IH s H).
Qed.

Lemma occurs_app_l (p : pattern) (s t : jstring) :
  occurs p s = true -> occurs p (s ++ t) = true.
Proof.
  induction s as [| c s IH]; cbn [occurs app].
  - rewrite orb_false_r. intros H. destruct p; [| discriminate].
    destruct t; reflexivity.
  - intros H. apply orb_prop in H as [H | H].
    + pose proof (matches_at_app _ (c :: s) t H) as M. cbn [app] in M.
      now rewrite M.
    + rewrite (IH H). apply orb_true_r.
Qed.

Lemma occurs_app_r (p : pattern) (s t : jstring) :
  occurs p t = true -> occurs p (s ++ t) = true.
Proof.
  intros H. induction s as [| c s IH]; cbn [occurs app]; [exact H |].
  rewrite IH. apply orb_true_r.
Qed.

Lemma trimStart_suffix (s : jstring) : exists a, s = a ++ trimStart s.
Proof.
  induction s as [| c s [a IH]]; cbn.
  - now exists [].
  - destruct (is_white_space c).
    + exists (c :: a). cbn. now rewrite <- IH.
    + now exists [].
Qed.

Lemma trimEnd_prefix (s : jstring) : exists b, s = trimEnd s ++ b.
Proof.
  unfold trimEnd. destruct (trimStart_suffix (rev s)) as [a E].
  exists (rev a). rewrite <- rev_app_distr, <- E. now rewrite rev_involutive.
Qed.

Lemma occurs_trim (p : pattern) (s : jstring) :
  occurs p s = false -> occurs p (trim s) = false.
Proof.
  intros H. destruct (occurs p (trim s)) eqn:O; [| reflexivity].
  unfold trim in O.
  destruct (trimEnd_prefix (trimStart s)) as [b Eb].
  destruct (trimStart_suffix s) as [a Ea].
  apply occurs_app_l with (t := b) in O. rewrite <- Eb in O.
  apply occurs_app_r with (s := a) in O. rewrite <- Ea in O. congruence.
Qed.

(** *** The ends of a trimmed string *)

Lemma trimStart_head (s : jstring) : head_not_space (trimStart s).
Proof.
  induction s as [| c s IH]; cbn; [exact I |].
  destruct (is_white_space c) eqn:W; [exact IH | exact W].
Qed.

Lemma trimStart_keeps_last (w : jstring) (c : code_unit) :
  is_white_space c = false -> exists u, trimStart (w ++ [c]) = u ++ [c].
Proof.
  intros W. induction w as [| d w [u IH]]; cbn.
  - rewrite W. now exists [].
  - destruct (is_white_space d); [eauto |]. now exists (d :: w).
Qed.

Lemma trimEnd_head (s : jstring) :
  head_not_space s -> head_not_space (trimEnd s).
Proof.
  destruct s as [| c s]; [intros _; exact I |].
  cbn [head_not_space]. intros W. unfold trimEnd. cbn [rev].
  destruct (trimStart_keeps_last (rev s) c W) as [u ->].
  rewrite rev_app_distr. exact W.
Qed.

Lemma trim_trimmed (s : jstring) : trimmed (trim s) = true.
Proof.
  unfold trimmed. apply andb_true_intro. split.
  - pose proof (trimEnd_head _ (trimStart_head s)) as H. unfold trim.
    destruct (trimEnd (trimStart s)); [reflexivity |].
    cbn in H. now rewrite H.
  - unfold trim, trimEnd. rewrite rev_involutive.
    pose proof (trimStart_head (rev (trimStart s))) as H.
    destruct (trimStart (rev (trimStart s))); [reflexivity |].
    cbn in H. now rewrite H.
Qed.

End CleanFacts.

(** *** What is kept *)

Section CleanKeeps.

Import Regex.

Lemma no_match_without_backtick (c : code_unit) (t : jstring) :
  N.eqb c BACKTICK = false ->
  matches_at FENCE (c :: t) = false /\ matches_at FENCE_JSON (c :: t) = false.
Proof.
  intros H. unfold FENCE, FENCE_JSON. cbn [matches_at]. unfold lit.
  rewrite N.eqb_sym, H. auto.
Qed.

Lemma remove_plain_prefix (s t : jstring) :
  no_backtick s = true ->
  remove_all FENCE (s ++ t) = s ++ remove_all FENCE t
  /\ remove_all FENCE_JSON (s ++ t) = s ++ remove_all FENCE_JSON t.
Proof.
  induction s as [| c s IH]; cbn [no_backtick forallb app]; [auto |].
  intros H. apply andb_prop in H as [Hc Hs].
  apply negb_true_iff in Hc.
  destruct (no_match_without_backtick c (s ++ t) Hc) as [M1 M2].
  destruct (IH Hs) as [E1 E2].
  rewrite (remove_no_match _ _ _ M1), (remove_no_match _ _ _ M2), E1, E2.
  auto.
Qed.

Lemma clean_without_backtick (raw : jstring) :
  no_backtick raw = true -> clean raw = trim raw.
Proof.
  intros H. unfold clean.
  destruct (remove_plain_prefix raw [] H) as [E1 E2].
  rewrite app_nil_r in E1, E2. cbn in E1, E2. rewrite app_nil_r in E1, E2.
  now rewrite E2, E1.
Qed.

Lemma remove_json_fence_at_match (tag rest : jstring) :
  json_tag tag = true ->
  remove_all FENCE_JSON (fence ++ tag ++ rest) = remove_all FENCE_JSON rest.
Proof.
  destruct tag as [| j [| s [| o [| n [| x tag]]]]]; try discriminate.
  cbn [json_tag]. intros H.
  unfold remove_all, fence, FENCE_JSON. cbn [app remove_from matches_at length].
  unfold lit at 1 2 3. rewrite !N.eqb_refl. cbn [andb].
  rewrite andb_true_r. rewrite <- !andb_assoc in H. rewrite H.
  reflexivity.
Qed.

Lemma clean_json_fenced (tag body : jstring) :
  json_tag tag = true -> no_backtick body = true ->
  clean (fence ++ tag ++ body ++ fence) = trim body.
Proof.
  intros Ht Hb. unfold clean.
  rewrite (remove_json_fence_at_match tag (body ++ fence) Ht).
  destruct (remove_plain_prefix body fence Hb) as [E1 E2].
  rewrite E2. change (remove_all FENCE_JSON fence) with fence.
  rewrite E1. change (remove_all FENCE fence) with (@nil code_unit).
  now rewrite app_nil_r.
Qed.

Lemma clean_plain_fenced (body : jstring) :
  no_backtick body = true ->
  matches_at FENCE_JSON (fence ++ body ++ fence) = false ->
  clean (fence ++ body ++ fence) = trim body.
Proof.
  intros Hb Hm. unfold clean.
  assert (E : remove_all FENCE_JSON (fence ++ body ++ fence)
              = fence ++ body ++ fence).
  { destruct body as [| a body]; [reflexivity |].
    cbn [no_backtick forallb] in Hb. apply andb_prop in Hb as [Ha Hb'].
    apply negb_true_iff in Ha.
    assert (Hab : no_backtick (a :: body) = true).
    { cbn [no_backtick forallb]. now rewrite Ha, Hb'. }
    destruct (remove_plain_prefix (a :: body) fence Hab) as [_ E2].
    change (remove_all FENCE_JSON fence) with fence in E2.
    remember ((a :: body) ++ fence) as rest eqn:Hrest.
    unfold fence at 1 in Hm. unfold fence at 1. cbn [app] in Hm |- *.
    rewrite (remove_no_match _ _ _ Hm).
    rewrite remove_no_match.
    2:{ rewrite Hrest. unfold FENCE_JSON. cbn [matches_at app].
        unfold lit at 3.
        rewrite (N.eqb_sym BACKTICK a), Ha. now rewrite !andb_false_r. }
    rewrite remove_no_match.
    2:{ rewrite Hrest. unfold FENCE_JSON. cbn [matches_at app].
        unfold lit at 2.
        rewrite (N.eqb_sym BACKTICK a), Ha. now rewrite !andb_false_r. }
    now rewrite E2. }
  rewrite E. unfold fence at 1. cbn [app]. rewrite remove_fence_at_match.
  destruct (remove_plain_prefix body fence Hb) as [E1 _].
  rewrite E1. change (remove_all FENCE fence) with (@nil code_unit).
  now rewrite app_nil_r.
Qed.

End CleanKeeps.

(** C8. At both stages the text handed to the JSON parser is the raw
    response with every [```json] (in any letter casing) and every [```]
    removed and the white space at both ends trimmed: the parser receives
    [clean raw], in which no fence marker occurs and which neither starts
    nor ends with white space; text without back-ticks is only trimmed,
    and a response wrapped in a [```json] or a plain [```] fence is
    reduced to its trimmed body. *)
Theorem C8_fences_stripped_before_parsing :
  (forall raw,
     occurs Regex.FENCE (clean raw) = false
     /\ occurs Regex.FENCE_JSON (clean raw) = false
     /\ trimmed (clean raw) = true)
  /\ (forall raw, no_backtick raw = true -> clean raw = trim raw)
  /\ (forall tag body,
        json_tag tag = true -> no_backtick body = true ->
        clean (fence ++ tag ++ body ++ fence) = trim body)
  /\ (forall body,
        no_backtick body = true ->
        Regex.matches_at Regex.FENCE_JSON (fence ++ body ++ fence) = false ->
        clean (fence ++ body ++ fence) = trim body)
  /\ (forall rt chunk prompt raw log,
        buildChunkPrompt rt chunk = Ok prompt ->
        generateContent rt (length log) prompt = Ok raw ->
        runChunk rt chunk log
        = (match JSON_parse rt (clean raw) with
           | Ok v => Ok v
           | Throw _ => Ok FALLBACK
           end, log ++ [prompt]))
  /\ (forall rt agg raw log,
        generateContent rt (length log) (buildPremiumPrompt rt agg) = Ok raw ->
        runFinalPremium rt agg log
        = (JSON_parse rt (clean raw), log ++ [buildPremiumPrompt rt agg])).
Proof.
  split; [| split; [| split; [| split; [| split]]]].
  - intros raw.
    assert (H : occurs Regex.FENCE (clean raw) = false).
    { unfold clean. apply occurs_trim, remove_fence_leaves_none. }
    split; [exact H |]. split; [now apply occurs_fence_json_fence |].
    apply trim_trimmed.
  - exact clean_without_backtick.
  - exact clean_json_fenced.
  - exact clean_plain_fenced.
  - intros rt chunk prompt raw log Hp Hg.
    unfold runChunk, generate, bindM, lift, ret. rewrite Hp, Hg.
    destruct (JSON_parse rt (clean raw)); reflexivity.
  - intros rt agg raw log Hg.
    unfold runFinalPremium, generate, bindM, lift. now rewrite Hg.
Qed.

Lemma C8_fences_stripped_before_parsing_witness :
  clean (fence ++ js "JSON" ++ (newline ++ js "{}" ++ newline) ++ fence)
    = js "{}"
  /\ clean (fence ++ (newline ++ js "[1]" ++ js "  ") ++ fence) = js "[1]"
  /\ runChunk TestDouble.rt (TestDouble.comments 2) []
     = (Ok (TestDouble.partial 60 30 10),
        [join newline
           (chunk_prompt_lines
            ++ [js "1. nice video" ++ newline ++ js "2. nice video"; []])])
  /\ runFinalPremium TestDouble.rt VNull [js "p0"; js "p1"]
     = (Ok TestDouble.report,
        [js "p0"; js "p1"; buildPremiumPrompt TestDouble.rt VNull]).
Proof.
  destruct C8_fences_stripped_before_parsing
    as (_ & _ & Hjson & Hplain & Hchunk & Hfinal).
  split; [| split; [| split]].
  - rewrite (Hjson (js "JSON") (newline ++ js "{}" ++ newline));
      reflexivity.
  - rewrite (Hplain (newline ++ js "[1]" ++ js "  ")); reflexivity.
  - rewrite (Hchunk TestDouble.rt (TestDouble.comments 2) _
               (fence ++ js "json" ++ newline ++ js "A" ++ newline ++ fence)
               [] eq_refl eq_refl).
    reflexivity.
  - rewrite (Hfinal TestDouble.rt VNull (js "R") [js "p0"; js "p1"] eq_refl).
    reflexivity.
Defined.

(** ** The route, stage by stage *)

Section PipelineFacts.

Variable rt : runtime.

Lemma guard_passes (cs : list value) :
  cs <> [] -> negb (ToBoolean (VNum (Number.of_nat (length cs)))) = false.
Proof.
  intros Hne.
  assert (Hn : 1 <= length cs) by (destruct cs; [congruence | cbn; lia]).
  destruct (NumberFacts.of_nat_nonzero Hn) as [Hz Hnan].
  cbn [ToBoolean]. now rewrite Hz, Hnan.
Qed.

(** A task that fulfils, before tasks that all fulfil. *)
Lemma Promise_all_cons_ok {A : Type} (first : list nat -> nat) (t : M A)
  (rest : list (M A)) (log log1 log2 : list jstring) (a : A) (l : list A) :
  t log = (Ok a, log1) ->
  Promise_all first rest log1 = (Ok l, log2) ->
  Promise_all first (t :: rest) log = (Ok (a :: l), log2).
Proof.
  unfold Promise_all. cbn [dispatch_all]. intros Et Er. rewrite Et.
  destruct (dispatch_all rest log1) as [rs log']. inversion Er; subst.
  match goal with H : settle_all _ _ = Ok _ |- _ =>
    apply settle_all_Ok_inv in H; rewrite H end.
  change (Ok a :: map Ok l) with (map (@Ok A) (a :: l)).
  now rewrite (settle_all_values first (a :: l)).
Qed.

(** Tasks of which at least one rejects, all with the same error. *)
Lemma Promise_all_same_error {A : Type} (first : list nat -> nat)
  (tasks : list (M A)) (log : list jstring) (e : error) :
  In (Throw e) (fst (dispatch_all tasks log)) ->
  (forall e', In (Throw e') (fst (dispatch_all tasks log)) -> e' = e) ->
  Promise_all first tasks log = (Throw e, snd (dispatch_all tasks log)).
Proof.
  unfold Promise_all. destruct (dispatch_all tasks log) as [rs log'].
  cbn [fst snd]. intros Hin Hsame. now rewrite (@settle_all_same A first rs e Hin Hsame).
Qed.

Lemma runChunk_result (chunk : value) (prompt raw : jstring)
  (log : list jstring) :
  buildChunkPrompt rt chunk = Ok prompt ->
  generateContent rt (length log) prompt = Ok raw ->
  runChunk rt chunk log
  = (match JSON_parse rt (clean raw) with
     | Ok v => Ok v
     | Throw _ => Ok FALLBACK
     end, log ++ [prompt]).
Proof.
  intros Hp Hg. unfold runChunk, generate, bindM, lift, ret.
  rewrite Hp, Hg. destruct (JSON_parse rt (clean raw)); reflexivity.
Qed.

Lemma runFinalPremium_result (agg : value) (raw : jstring)
  (log : list jstring) :
  generateContent rt (length log) (buildPremiumPrompt rt agg) = Ok raw ->
  runFinalPremium rt agg log
  = (JSON_parse rt (clean raw), log ++ [buildPremiumPrompt rt agg]).
Proof.
  intros Hg. unfold runFinalPremium, generate, bindM, lift. now rewrite Hg.
Qed.

(** A chunk of strings always yields a prompt. *)
Lemma numbered_strings (cs : list value) (start : nat) :
  Forall (fun c => is_string c = true) cs ->
  exists items, map_indexed (numbered_comment rt) start cs = Ok items.
Proof.
  intros H. revert start. induction H as [| c cs Hc _ IH]; intros start.
  - now exists [].
  - destruct c; try discriminate. destruct (IH (S start)) as [items E].
    cbn [map_indexed]. unfold numbered_comment at 1. cbn. rewrite E.
    cbn. eauto.
Qed.

Lemma buildChunkPrompt_strings (cs : list value) (xs : props) :
  Forall (fun c => is_string c = true) cs ->
  exists prompt, buildChunkPrompt rt (VArr cs xs) = Ok prompt.
Proof.
  intros H. destruct (numbered_strings 0 H) as [items E].
  unfold buildChunkPrompt. rewrite E. cbn [bind]. eauto.
Qed.

Lemma array_chunks_of_strings (cs : list value) :
  Forall (fun c => is_string c = true) cs ->
  Forall (fun ch => exists prompt, buildChunkPrompt rt ch = Ok prompt)
    (array_chunks cs).
Proof.
  intros H. unfold array_chunks. apply Forall_map.
  assert (Hall : Forall (Forall (fun c => is_string c = true))
                   (Chunker.split_chunks cs)).
  { apply Forall_concat. unfold Chunker.split_chunks.
    rewrite chunk_loop_concat. exact H. }
  eapply Forall_impl; [| exact Hall].
  intros ch Hch. now apply buildChunkPrompt_strings.
Qed.


End PipelineFacts.

(** A non-empty array of comments whose chunk stage goes through. *)
Lemma array_chunk_stage_returns (rt : runtime) (fields : props)
  (cs : list value) (xs : props) (partials : list value)
  (log : list jstring) :
  lookup (js "comments") fields = Some (VArr cs xs) ->
  cs <> [] ->
  Promise_all (first_rejected rt) (map (runChunk rt) (array_chunks cs)) []
    = (Ok partials, log) ->
  chunk_stage_returns rt (VObj fields) partials log.
Proof.
  intros Hlookup Hne E.
  exists (VArr cs xs), (VNum (Number.of_nat (length cs))), (array_chunks cs).
  cbn [get_prop]. rewrite Hlookup.
  pose proof (guard_passes Hne) as G. apply negb_false_iff in G.
  repeat split; assumption || reflexivity.
Qed.

(** C2. Whatever records the chunk stage returned (with numeric [pos],
    [neg], [neu], as the data model has them) and whatever object the
    synthesis stage returned, with whatever values under
    [positivePercentage], [negativePercentage] and [neutralPercentage],
    the route answers 200 and the report in its answer carries under
    these three keys [Math.round] of the mean of the records' [pos],
    [neg] and [neu]. *)
Theorem C2_percentages_are_rounded_means (rt : runtime) (req : value)
  (partials : list value) (log : list jstring) (agg : aggregate)
  (raw : jstring) (final : value) :
  chunk_stage_returns rt req partials log ->
  Forall (fun p => numeric_partial p = true) partials ->
  aggregate_partials rt partials = Ok agg ->
  generateContent rt (length log)
    (buildPremiumPrompt rt (aggregate_object agg)) = Ok raw ->
  JSON_parse rt (clean raw) = Ok final ->
  is_primitive final = false ->
  exists report,
    analyze rt req
    = (Ok (Response 200
             (VObj [ (js "success", VBool true); (js "data", report) ])),
       log ++ [buildPremiumPrompt rt (aggregate_object agg)])
    /\ get_prop rt report (js "positivePercentage")
       = Ok (VNum (Number.Math_round (mean (field_values (js "pos") partials))))
    /\ get_prop rt report (js "negativePercentage")
       = Ok (VNum (Number.Math_round (mean (field_values (js "neg") partials))))
    /\ get_prop rt report (js "neutralPercentage")
       = Ok (VNum (Number.Math_round (mean (field_values (js "neu") partials)))).
Proof.
  intros (given & len & chunks & Hg & Hl & Hb & Hc & E) Hnum Eagg Hgen
    Hparse Hobj.
  destruct (aggregate_numeric rt Hnum) as (agg' & Eagg' & E1 & E2 & E3).
  rewrite Eagg in Eagg'. inversion Eagg'; subst agg'. clear Eagg'.
  destruct (insert_numbers_assigns rt agg final Hobj)
    as (report & Er & _ & Hp & Eo).
  destruct percentage_keys_distinct as (D12 & D13 & D23).
  exists report. split.
  - unfold analyze, handler, runFinalPremium, generate, try_catch, bindM,
      lift, ret.
    rewrite Hg, Hl, Hb. cbn [negb]. rewrite Hc, E, Eagg, Hgen, Hparse, Er.
    reflexivity.
  - rewrite !(get_prop_own rt report _ Hp), Eo, <- E1, <- E2, <- E3.
    repeat split.
    + rewrite !lookup_assign_other by assumption.
      now rewrite lookup_assign_same.
    + rewrite lookup_assign_other by assumption.
      now rewrite lookup_assign_same.
    + now rewrite lookup_assign_same.
Qed.

Lemma C2_percentages_are_rounded_means_witness :
  exists report calls,
    analyze TestDoubleMore.rt_half_points (TestDouble.request 150)
    = (Ok (Response 200
             (VObj [ (js "success", VBool true); (js "data", report) ])),
       calls)
    /\ get_prop TestDoubleMore.rt_half_points report (js "positivePercentage")
       = Ok (VNum (Number.of_Z 51))
    /\ get_prop TestDoubleMore.rt_half_points report (js "negativePercentage")
       = Ok (VNum (Number.of_Z 40))
    /\ get_prop TestDoubleMore.rt_half_points report (js "neutralPercentage")
       = Ok (VNum (Number.of_Z 10)).
Proof.
  pose (rt := TestDoubleMore.rt_half_points).
  pose (cs := repeat (VStr (js "nice video")) 150).
  pose (partials := [TestDouble.partial 60 30 10; TestDouble.partial 41 50 9]).
  pose (log := snd (Promise_all (first_rejected rt)
                      (map (runChunk rt) (array_chunks cs)) [])).
  pose (agg := match aggregate_partials rt partials with
               | Ok a => a
               | Throw _ => EMPTY_AGGREGATE
               end).
  assert (S : chunk_stage_returns rt (TestDouble.request 150) partials log).
  { apply (@array_chunk_stage_returns rt _ cs []).
    - reflexivity.
    - discriminate.
    - vm_compute. reflexivity. }
  destruct (@C2_percentages_are_rounded_means rt (TestDouble.request 150)
              partials log agg (js "R") TestDouble.report S)
    as (report & E & E1 & E2 & E3).
  - repeat constructor.
  - vm_compute. reflexivity.
  - vm_compute. reflexivity.
  - vm_compute. reflexivity.
  - reflexivity.
  - exists report. eexists. split; [exact E |].
    split; [| split].
    + etransitivity; [exact E1 | vm_compute; reflexivity].
    + etransitivity; [exact E2 | vm_compute; reflexivity].
    + etransitivity; [exact E3 | vm_compute; reflexivity].
Defined.



(** A non-empty array of comments whose chunk stage and aggregation go
    through reaches the synthesis call. *)
Lemma array_reaches_synthesis (rt : runtime) (fields : props)
  (cs : list value) (xs : props) (partials : list value)
  (log : list jstring) (agg : aggregate) :
  lookup (js "comments") fields = Some (VArr cs xs) ->
  cs <> [] ->
  Promise_all (first_rejected rt) (map (runChunk rt) (array_chunks cs)) [] = (Ok partials, log) ->
  aggregate_partials rt partials = Ok agg ->
  reaches_synthesis rt (VObj fields) agg log.
Proof.
  intros Hlookup Hne E Eagg.
  exists (VArr cs xs), (VNum (Number.of_nat (length cs))),
    (array_chunks cs), partials.
  cbn [get_prop]. rewrite Hlookup.
  pose proof (guard_passes Hne) as G. apply negb_false_iff in G.
  repeat split; assumption || reflexivity.
Qed.

(** C5. When a request has reached the synthesis call and the synthesis
    response, once cleaned, is rejected by the parser, the error leaves
    [runFinalPremium] and the route answers with status 500 and the body
    [{success:false, error:<message of the error>}]. *)
Theorem C5_synthesis_parse_failure_is_fatal (rt : runtime) (req : value)
  (log : list jstring) (agg : aggregate) (raw : jstring) (e : error) :
  reaches_synthesis rt req agg log ->
  generateContent rt (length log)
    (buildPremiumPrompt rt (aggregate_object agg)) = Ok raw ->
  JSON_parse rt (clean raw) = Throw e ->
  runFinalPremium rt (aggregate_object agg) log
    = (Throw e, log ++ [buildPremiumPrompt rt (aggregate_object agg)])
  /\ analyze rt req
     = (Ok (Response 500
              (VObj [ (js "success", VBool false);
                      (js "error", VStr (message e)) ])),
        log ++ [buildPremiumPrompt rt (aggregate_object agg)]).
Proof.
  intros (given & len & chunks & partials & Hg & Hl & Hb & Hc & E & Eagg)
    Hgen Hparse.
  pose proof (runFinalPremium_result rt _ log Hgen) as Efinal.
  rewrite Hparse in Efinal.
  split; [exact Efinal |].
  unfold analyze, handler, try_catch, bindM, lift, ret.
  rewrite Hg, Hl, Hb. cbn [negb]. rewrite Hc, E, Eagg, Efinal.
  reflexivity.
Qed.

Lemma C5_synthesis_parse_failure_is_fatal_witness :
  exists calls,
    analyze TestDouble.rt_prose_synthesis (TestDouble.request 150)
    = (Ok (Response 500
             (VObj [ (js "success", VBool false);
                     (js "error", VStr (js "Unexpected token")) ])),
       calls)
    /\ length calls = 3.
Proof.
  pose (rt := TestDouble.rt_prose_synthesis).
  pose (cs := repeat (VStr (js "nice video")) 150).
  pose (log := snd (Promise_all (first_rejected rt) (map (runChunk rt) (array_chunks cs)) [])).
  pose (agg := {| posAvg := Number.of_Z 30; negAvg := Number.of_Z 15;
                  neuAvg := Number.of_Z 5;
                  praise := []; pain := []; themes := [] |}).
  assert (R : reaches_synthesis rt (TestDouble.request 150) agg log).
  { apply (@array_reaches_synthesis rt _ cs []
             [TestDouble.partial 60 30 10; FALLBACK]).
    - reflexivity.
    - discriminate.
    - vm_compute. reflexivity.
    - vm_compute. reflexivity. }
  destruct (@C5_synthesis_parse_failure_is_fatal rt (TestDouble.request 150)
              log agg (js "Here is the report you asked for.")
              TestDouble.SYNTAX_ERROR R)
    as [_ H].
  - vm_compute. reflexivity.
  - vm_compute. reflexivity.
  - eexists. split; [exact H |]. vm_compute. reflexivity.
Defined.

(** * Further properties of the route *)

(** ** Where each chunk sits *)

Section ChunkPositions.

Context {A : Type}.
Implicit Types (comments : list A) (chunks : list (list A)).

Import Chunker.

Lemma chunk_loop_closed_form comments i chunks :
  chunk_loop comments i chunks
  = chunks
    ++ map (fun j => slice comments (i + j * BATCH) (i + j * BATCH + BATCH))
         (seq 0 (ceil_div (length comments - i) BATCH)).
Proof.
  funelim (chunk_loop comments i chunks).
  - rewrite H. rewrite (ceil_div_step (n := length comments - i)) by lia.
    replace (length comments - i - BATCH) with (length comments - (i + BATCH))
      by lia.
    cbn [seq map]. rewrite <- app_assoc. cbn [app]. f_equal.
    rewrite Nat.mul_0_l, Nat.add_0_r. f_equal.
    rewrite <- seq_shift, map_map. apply map_ext. intros j.
    f_equal; cbn [Nat.mul]; lia.
  - replace (length comments - i) with 0 by lia. cbn. now rewrite app_nil_r.
Qed.

Lemma split_chunks_closed_form comments :
  split_chunks comments
  = map (fun j => slice comments (j * BATCH) (j * BATCH + BATCH))
      (seq 0 (ceil_div (length comments) BATCH)).
Proof.
  unfold split_chunks. rewrite chunk_loop_closed_form.
  cbn [app]. now rewrite Nat.sub_0_r.
Qed.

End ChunkPositions.

(** X1. The [j]-th chunk is the window of the input that starts at index
    [100 * j]; every chunk but the last holds exactly 100 comments and the
    last one holds the remaining [L - 100 * (K - 1)]. *)
Theorem X1_chunk_is_window (A : Type) (comments : list A) (j : nat) :
  j < length (Chunker.split_chunks comments) ->
  nth_error (Chunker.split_chunks comments) j
    = Some (firstn 100 (skipn (100 * j) comments))
  /\ (j + 1 < length (Chunker.split_chunks comments) ->
      length (firstn 100 (skipn (100 * j) comments)) = 100)
  /\ (j + 1 = length (Chunker.split_chunks comments) ->
      length (firstn 100 (skipn (100 * j) comments))
      = length comments - 100 * j).
Proof.
  intros Hj. pose proof (split_chunks_length comments) as HK.
  rewrite HK in *.
  pose proof (fun n => @ceil_div_is_ceiling (length comments) 100 n
                        ltac:(lia)) as C.
  unfold Chunker.BATCH in *.
  split; [| split].
  - rewrite split_chunks_closed_form. unfold Chunker.BATCH.
    rewrite nth_error_map, nth_error_seq.
    destruct (Nat.ltb_spec j (Chunker.ceil_div (length comments) 100));
      [| lia].
    cbn [option_map]. unfold Chunker.slice.
    f_equal. f_equal; [lia | f_equal; lia].
  - intros Hlast. rewrite length_firstn, length_skipn.
    assert (~ length comments <= (j + 1) * 100).
    { intros Hle. apply (proj2 (C (j + 1))) in Hle. lia. }
    lia.
  - intros Hlast. rewrite length_firstn, length_skipn.
    assert (length comments <= (j + 1) * 100)
      by (apply (proj1 (C (j + 1))); lia).
    lia.
Qed.

Lemma X1_chunk_is_window_witness :
  nth_error (Chunker.split_chunks (seq 0 250)) 2 = Some (seq 200 50)
  /\ length (firstn 100 (skipn 200 (seq 0 250))) = 50.
Proof.
  assert (H : 2 < length (Chunker.split_chunks (seq 0 250)))
    by (vm_compute; lia).
  destruct (X1_chunk_is_window (seq 0 250) H) as (E & _ & L).
  split.
  - exact E.
  - exact (L eq_refl).
Defined.

(** ** The route past its guard *)

Section RouteFacts.

Variable rt : runtime.

(** What the route answers once the guard has let the request through,
    read off the outcome of each stage in turn. *)
Lemma analyze_past_guard (req given len : value) (chunks : list value) :
  get_prop rt req (js "comments") = Ok given ->
  get_length rt (match given with VUndef => VArr [] [] | _ => given end)
    = Ok len ->
  ToBoolean len = true ->
  chunking rt (match given with VUndef => VArr [] [] | _ => given end)
    = Ok chunks ->
  analyze rt req
  = match Promise_all (first_rejected rt) (map (runChunk rt) chunks) [] with
    | (Throw e, log) => (Ok (failure 500 (message e)), log)
    | (Ok partials, log) =>
        match aggregate_partials rt partials with
        | Throw e => (Ok (failure 500 (message e)), log)
        | Ok agg =>
            let prompt := buildPremiumPrompt rt (aggregate_object agg) in
            match generateContent rt (length log) prompt with
            | Throw e => (Ok (failure 500 (message e)), log ++ [prompt])
            | Ok raw =>
                match JSON_parse rt (clean raw) with
                | Throw e => (Ok (failure 500 (message e)), log ++ [prompt])
                | Ok final =>
                    match insert_numbers rt agg final with
                    | Throw e => (Ok (failure 500 (message e)), log ++ [prompt])
                    | Ok report => (Ok (success report), log ++ [prompt])
                    end
                end
            end
        end
    end.
Proof.
  intros Hg Hl Hb Hc.
  unfold analyze, handler, runFinalPremium, generate, try_catch, bindM,
    lift, ret.
  rewrite Hg, Hl, Hb. cbn [negb]. rewrite Hc.
  destruct (Promise_all _ _) as [[partials | e] log]; [| reflexivity].
  destruct (aggregate_partials rt partials) as [agg | e]; [| reflexivity].
  cbv zeta.
  destruct (generateContent rt _ _) as [raw | e]; [| reflexivity].
  destruct (JSON_parse rt (clean raw)) as [final | e]; [| reflexivity].
  destruct (insert_numbers rt agg final); reflexivity.
Qed.

Lemma truthy_length (n : nat) :
  1 <= n -> ToBoolean (VNum (Number.of_nat n)) = true.
Proof.
  intros Hn. destruct (NumberFacts.of_nat_nonzero Hn) as [Hz Hnan].
  cbn [ToBoolean]. now rewrite Hz, Hnan.
Qed.

Lemma nonempty_length {T : Type} (l : list T) : l <> [] -> 1 <= length l.
Proof. destruct l; [congruence | cbn; lia]. Qed.

(** *** The prompts a chunk stage sends *)

Lemma runChunk_sends_at_most_one (chunk : value) (log : list jstring) :
  exists extra,
    snd (runChunk rt chunk log) = log ++ extra /\ length extra <= 1.
Proof.
  unfold runChunk, generate, bindM, lift, ret.
  destruct (buildChunkPrompt rt chunk) as [prompt | e].
  - exists [prompt]. split; [| cbn; lia].
    destruct (generateContent rt _ _) as [raw | e]; [| reflexivity].
    destruct (JSON_parse rt (clean raw)); reflexivity.
  - exists []. split; [now rewrite app_nil_r | cbn; lia].
Qed.

Lemma dispatch_sends_at_most_one_each (chunks : list value)
  (log : list jstring) :
  exists extra,
    snd (dispatch_all (map (runChunk rt) chunks) log) = log ++ extra
    /\ length extra <= length chunks.
Proof.
  revert log. induction chunks as [| ch chunks IH]; intros log.
  - exists []. cbn. split; [now rewrite app_nil_r | lia].
  - cbn [map dispatch_all].
    destruct (runChunk_sends_at_most_one ch log) as (e1 & E1 & L1).
    destruct (runChunk rt ch log) as [r log1]. cbn [snd] in E1. subst log1.
    destruct (IH (log ++ e1)) as (e2 & E2 & L2).
    destruct (dispatch_all _ (log ++ e1)) as [rs log2]. cbn [snd] in *.
    exists (e1 ++ e2). rewrite app_assoc, length_app. split; [exact E2 |].
    cbn. lia.
Qed.

Lemma runChunk_sends (chunk : value) (prompt : jstring) (log : list jstring) :
  buildChunkPrompt rt chunk = Ok prompt ->
  snd (runChunk rt chunk log) = log ++ [prompt].
Proof.
  intros Hp. unfold runChunk, generate, bindM, lift, ret. rewrite Hp.
  destruct (generateContent rt _ _) as [raw | e]; [| reflexivity].
  destruct (JSON_parse rt (clean raw)); reflexivity.
Qed.

(** Whatever the model answers, the chunk stage sends the prompt of every
    chunk, in chunk order. *)
Lemma dispatch_sends_every_prompt (chunks : list value) (log : list jstring) :
  Forall (fun ch => exists prompt, buildChunkPrompt rt ch = Ok prompt) chunks ->
  exists prompts,
    snd (dispatch_all (map (runChunk rt) chunks) log) = log ++ prompts
    /\ Forall2 (fun ch p => buildChunkPrompt rt ch = Ok p) chunks prompts.
Proof.
  intros H. revert log. induction H as [| ch chunks [p Hp] _ IH]; intros log.
  - exists []. cbn. split; [now rewrite app_nil_r | constructor].
  - cbn [map dispatch_all].
    pose proof (runChunk_sends ch log Hp) as E1.
    destruct (runChunk rt ch log) as [r log1]. cbn [snd] in E1. subst log1.
    destruct (IH (log ++ [p])) as (ps & E2 & F).
    destruct (dispatch_all _ (log ++ [p])) as [rs log2]. cbn [snd] in *.
    exists (p :: ps). split; [| now constructor].
    rewrite E2, <- app_assoc. reflexivity.
Qed.

Lemma Promise_all_log {T : Type} (first : list nat -> nat)
  (tasks : list (M T)) (log : list jstring) :
  snd (Promise_all first tasks log) = snd (dispatch_all tasks log).
Proof.
  unfold Promise_all. now destruct (dispatch_all tasks log).
Qed.

(** After the chunk stage at most one more prompt is sent. *)
Lemma analyze_sends_one_more (req given len : value) (chunks : list value) :
  get_prop rt req (js "comments") = Ok given ->
  get_length rt (match given with VUndef => VArr [] [] | _ => given end)
    = Ok len ->
  ToBoolean len = true ->
  chunking rt (match given with VUndef => VArr [] [] | _ => given end)
    = Ok chunks ->
  exists tail,
    snd (analyze rt req)
    = snd (dispatch_all (map (runChunk rt) chunks) []) ++ tail
    /\ length tail <= 1.
Proof.
  intros Hg Hl Hb Hc. rewrite (analyze_past_guard _ Hg Hl Hb Hc).
  rewrite <- (Promise_all_log (first_rejected rt)).
  destruct (Promise_all _ _ _) as [[partials | e] log]; cbn [snd].
  2:{ exists []. split; [now rewrite app_nil_r | cbn; lia]. }
  destruct (aggregate_partials rt partials) as [agg | e]; cbn [snd].
  2:{ exists []. split; [now rewrite app_nil_r | cbn; lia]. }
  cbv zeta. exists [buildPremiumPrompt rt (aggregate_object agg)].
  split; [| cbn; lia].
  destruct (generateContent rt _ _) as [raw | e]; [| reflexivity].
  destruct (JSON_parse rt (clean raw)) as [final | e]; [| reflexivity].
  destruct (insert_numbers rt agg final); reflexivity.
Qed.

End RouteFacts.

(** *** Where the errors of the route come from *)

Section ConfinedFacts.

Variable rt : runtime.
Variable calls : list jstring.






















End ConfinedFacts.

Section ConfinedStages.

Variable rt : runtime.






End ConfinedStages.


(** X3. The answer is 400 exactly when [comments.length] is falsy: the
    guard does not ask for an array, so a number, a boolean, an empty
    string or an object without [length] under [comments] is answered
    like an empty list. *)
Theorem X3_status_400_iff_length_falsy (rt : runtime) (req : value) :
  (exists r, fst (analyze rt req) = Ok r /\ status r = 400)
  <-> exists given len,
        get_prop rt req (js "comments") = Ok given
        /\ get_length rt
             (match given with VUndef => VArr [] [] | _ => given end) = Ok len
        /\ ToBoolean len = false.
Proof.
  unfold analyze, handler, runFinalPremium, generate, try_catch, bindM,
    lift, ret.
  split.
  - intros (r & E & Hs). revert E.
    destruct (get_prop rt req (js "comments")) as [given | e];
      [| intros E; inversion E; subst; discriminate].
    destruct (get_length rt _) as [len | e] eqn:El;
      [| intros E; inversion E; subst; discriminate].
    destruct (ToBoolean len) eqn:Eb; cbn [negb].
    2:{ intros _. now exists given, len. }
    destruct (chunking rt _) as [chunks | e];
      [| intros E; inversion E; subst; discriminate].
    destruct (Promise_all _ _ _) as [[partials | e] log];
      [| intros E; inversion E; subst; discriminate].
    destruct (aggregate_partials rt partials) as [agg | e];
      [| intros E; inversion E; subst; discriminate].
    destruct (generateContent rt _ _) as [raw | e];
      [| intros E; inversion E; subst; discriminate].
    destruct (JSON_parse rt (clean raw)) as [final | e];
      [| intros E; inversion E; subst; discriminate].
    destruct (insert_numbers rt agg final) as [report | e];
      intros E; inversion E; subst; discriminate.
  - intros (given & len & Hg & Hl & Hb). rewrite Hg, Hl, Hb.
    eexists. split; reflexivity.
Qed.

Lemma X3_status_400_iff_length_falsy_witness :
  (exists r,
     fst (analyze TestDouble.rt
            (TestDoubleMore.request_with (VNum (Number.of_Z 7)))) = Ok r
     /\ status r = 400)
  /\ (exists r,
        fst (analyze TestDouble.rt
               (TestDoubleMore.request_with (VBool true))) = Ok r
        /\ status r = 400)
  /\ (exists r,
        fst (analyze TestDouble.rt
               (TestDoubleMore.request_with (VStr []))) = Ok r
        /\ status r = 400)
  /\ (exists r,
        fst (analyze TestDouble.rt
               (TestDoubleMore.request_with (VObj []))) = Ok r
        /\ status r = 400).
Proof.
  split; [| split; [| split]];
    apply (proj2 (X3_status_400_iff_length_falsy TestDouble.rt _));
    eexists; eexists; repeat split; reflexivity.
Defined.

(** ** Comments that are not an array *)

Section OddComments.

Variable rt : runtime.

Lemma runChunk_of_string (s : jstring) (log : list jstring) :
  runChunk rt (VStr s) log = (throwTypeError rt NotAFunction, log).
Proof. reflexivity. Qed.

Lemma dispatch_of_strings (pieces : list jstring) (log : list jstring) :
  dispatch_all (map (runChunk rt) (map VStr pieces)) log
  = (map (fun _ => throwTypeError rt NotAFunction) pieces, log).
Proof.
  induction pieces as [| s rest IH]; [reflexivity |].
  cbn [map dispatch_all]. rewrite runChunk_of_string, IH. reflexivity.
Qed.

Lemma Promise_all_of_strings (pieces : list jstring) (log : list jstring) :
  pieces <> [] ->
  Promise_all (first_rejected rt) (map (runChunk rt) (map VStr pieces)) log
  = (throwTypeError rt NotAFunction, log).
Proof.
  intros Hne.
  pose proof (@Promise_all_same_error value (first_rejected rt)
                (map (runChunk rt) (map VStr pieces)) log
                (Error (TypeError_message rt NotAFunction))) as H.
  rewrite dispatch_of_strings in H. cbn [fst snd] in H. apply H.
  - destruct pieces as [| s rest]; [congruence |]. now left.
  - intros e' Hin. apply in_map_iff in Hin as (x & Hx & _).
    inversion Hx. reflexivity.
Qed.

End OddComments.

(** X4. A non-empty string under [comments] passes the guard (it has a
    length) and is cut like an array, but no piece of it has a [map]
    method: every chunk task throws before calling the model, and the
    answer is 500 with the engine's "not a function" message. *)
Theorem X4_string_comments_fail_without_calls (rt : runtime) (fields : props)
  (s : jstring) :
  lookup (js "comments") fields = Some (VStr s) ->
  s <> [] ->
  analyze rt (VObj fields)
  = (Ok (failure 500 (TypeError_message rt NotAFunction)), []).
Proof.
  intros Hlookup Hne.
  rewrite (@analyze_past_guard rt (VObj fields) (VStr s)
             (VNum (Number.of_nat (length s)))
             (map VStr (Chunker.split_chunks s))).
  - rewrite Promise_all_of_strings; [reflexivity |].
    intros E. pose proof (split_chunks_nonempty Hne) as K.
    rewrite E in K. cbn in K. lia.
  - cbn [get_prop]. now rewrite Hlookup.
  - reflexivity.
  - apply truthy_length. now apply nonempty_length.
  - reflexivity.
Qed.

Lemma X4_string_comments_fail_without_calls_witness :
  analyze TestDouble.rt (TestDoubleMore.request_with (VStr (js "nice video")))
  = (Ok (failure 500 (js "TypeError")), []).
Proof.
  apply (@X4_string_comments_fail_without_calls TestDouble.rt _
           (js "nice video")).
  - reflexivity.
  - discriminate.
Defined.

(** X5. However the model answers, a request with an array of [L]
    comments sends at most [ceil (L / 100) + 1] prompts: one per chunk at
    most, and one for the synthesis. *)
Theorem X5_call_budget (rt : runtime) (fields : props) (cs : list value)
  (xs : props) :
  lookup (js "comments") fields = Some (VArr cs xs) ->
  length (snd (analyze rt (VObj fields)))
  <= Chunker.ceil_div (length cs) 100 + 1.
Proof.
  intros Hlookup. destruct cs as [| c cs].
  - assert (E : analyze rt (VObj fields)
                = (Ok (failure 400 (js "No comments")), [])).
    { unfold analyze, handler, try_catch, bindM, lift, get_prop.
      rewrite Hlookup. reflexivity. }
    rewrite E. cbn. lia.
  - destruct (@analyze_sends_one_more rt (VObj fields) (VArr (c :: cs) xs)
                (VNum (Number.of_nat (length (c :: cs))))
                (array_chunks (c :: cs)))
      as (tail & E & Ht).
    + cbn [get_prop]. now rewrite Hlookup.
    + reflexivity.
    + apply truthy_length. cbn. lia.
    + reflexivity.
    + rewrite E, length_app.
      destruct (dispatch_sends_at_most_one_each rt (array_chunks (c :: cs)) [])
        as (extra & E' & He).
      rewrite E'. cbn [app].
      unfold array_chunks in He. rewrite length_map, split_chunks_length in He.
      unfold Chunker.BATCH in He. lia.
Qed.

Lemma X5_call_budget_witness :
  length (snd (analyze TestDouble.rt (TestDouble.request 150))) <= 3.
Proof.
  apply (@X5_call_budget TestDouble.rt _
           (repeat (VStr (js "nice video")) 150) []).
  reflexivity.
Defined.

(** X6. For a non-empty array of string comments the prompts sent begin
    with the prompt of every chunk, in chunk order, whatever the model
    answers to any of them; at most one prompt follows. *)
Theorem X6_every_chunk_prompt_is_sent (rt : runtime) (fields : props)
  (cs : list value) (xs : props) :
  lookup (js "comments") fields = Some (VArr cs xs) ->
  cs <> [] ->
  Forall (fun c => is_string c = true) cs ->
  exists prompts tail,
    snd (analyze rt (VObj fields)) = prompts ++ tail
    /\ Forall2 (fun ch p => buildChunkPrompt rt ch = Ok p)
         (array_chunks cs) prompts
    /\ length tail <= 1.
Proof.
  intros Hlookup Hne Hstr.
  destruct (@analyze_sends_one_more rt (VObj fields) (VArr cs xs)
              (VNum (Number.of_nat (length cs))) (array_chunks cs))
    as (tail & E & Ht).
  - cbn [get_prop]. now rewrite Hlookup.
  - reflexivity.
  - apply truthy_length. now apply nonempty_length.
  - reflexivity.
  - destruct (dispatch_sends_every_prompt rt []
                (array_chunks_of_strings rt Hstr)) as (prompts & E' & F).
    exists prompts, tail. rewrite E, E'. auto.
Qed.

Lemma X6_every_chunk_prompt_is_sent_witness :
  exists prompts tail,
    snd (analyze TestDoubleMore.rt_outage (TestDouble.request 150))
      = prompts ++ tail
    /\ Forall2 (fun ch p => buildChunkPrompt TestDoubleMore.rt_outage ch = Ok p)
         (array_chunks (repeat (VStr (js "nice video")) 150)) prompts
    /\ length tail <= 1.
Proof.
  apply (@X6_every_chunk_prompt_is_sent TestDoubleMore.rt_outage _
           (repeat (VStr (js "nice video")) 150) []).
  - reflexivity.
  - discriminate.
  - apply Forall_forall. intros c Hc. apply repeat_spec in Hc. now subst c.
Defined.

(** ** Failures of the model calls *)

Section UpstreamFacts.

Variable rt : runtime.

Lemma runChunk_fails (chunk : value) (prompt : jstring) (log : list jstring)
  (e : error) :
  buildChunkPrompt rt chunk = Ok prompt ->
  generateContent rt (length log) prompt = Throw e ->
  runChunk rt chunk log = (Throw e, log ++ [prompt]).
Proof.
  intros Hp Hg. unfold runChunk, generate, bindM, lift. now rewrite Hp, Hg.
Qed.

Lemma runChunk_fulfils (chunk : value) (prompt raw : jstring)
  (log : list jstring) :
  buildChunkPrompt rt chunk = Ok prompt ->
  generateContent rt (length log) prompt = Ok raw ->
  exists v, runChunk rt chunk log = (Ok v, log ++ [prompt]).
Proof.
  intros Hp Hg. rewrite (runChunk_result rt chunk log Hp Hg).
  destruct (JSON_parse rt (clean raw)); eauto.
Qed.

(** When every call returns text no chunk task rejects. *)
Lemma dispatch_no_rejection (chunks : list value) :
  Forall (fun ch => exists prompt, buildChunkPrompt rt ch = Ok prompt) chunks ->
  forall log : list jstring,
    (forall i prompt,
       i < length chunks ->
       exists raw, generateContent rt (length log + i) prompt = Ok raw) ->
    forall e, ~ In (Throw e) (fst (dispatch_all (map (runChunk rt) chunks) log)).
Proof.
  induction 1 as [| ch chunks [p Hp] _ IH]; intros log Hok e.
  - cbn. tauto.
  - cbn [map dispatch_all].
    destruct (Hok 0 p) as [raw Hg]; [cbn; lia |].
    rewrite Nat.add_0_r in Hg.
    destruct (runChunk_fulfils ch log Hp Hg) as [v Ev]. rewrite Ev.
    specialize (IH (log ++ [p])).
    destruct (dispatch_all _ (log ++ [p])) as [rs log2]. cbn [fst] in *.
    intros [E | Hin]; [discriminate |].
    apply (IH ltac:(intros i q Hi; rewrite length_app; cbn [length];
                    replace (length log + 1 + i) with (length log + S i)
                      by lia;
                    apply Hok; cbn; lia) e Hin).
Qed.

(** One failing call among calls that return text: the chunk stage has
    exactly that rejection. *)
Lemma dispatch_one_failure (chunks : list value) :
  Forall (fun ch => exists prompt, buildChunkPrompt rt ch = Ok prompt) chunks ->
  forall (log : list jstring) (j : nat) (e : error),
    j < length chunks ->
    (forall prompt, generateContent rt (length log + j) prompt = Throw e) ->
    (forall i prompt,
       i < length chunks -> i <> j ->
       exists raw, generateContent rt (length log + i) prompt = Ok raw) ->
    In (Throw e) (fst (dispatch_all (map (runChunk rt) chunks) log))
    /\ forall e',
         In (Throw e') (fst (dispatch_all (map (runChunk rt) chunks) log)) ->
         e' = e.
Proof.
  induction 1 as [| ch chunks [p Hp] Hrest IH]; intros log j e Hj Hfail Hok.
  - cbn in Hj. lia.
  - cbn [map dispatch_all]. destruct j as [| j].
    + specialize (Hfail p). rewrite Nat.add_0_r in Hfail.
      rewrite (runChunk_fails ch log Hp Hfail).
      pose proof (dispatch_no_rejection Hrest (log ++ [p])) as Hno.
      destruct (dispatch_all _ (log ++ [p])) as [rs log2]. cbn [fst] in *.
      split; [now left |].
      intros e' [E | Hin]; [now inversion E |].
      exfalso. apply (Hno ltac:(intros i q Hi; rewrite length_app;
                               cbn [length];
                               replace (length log + 1 + i)
                                 with (length log + S i) by lia;
                               apply Hok; cbn; lia) e' Hin).
    + destruct (Hok 0 p) as [raw Hg]; [cbn; lia | lia |].
      rewrite Nat.add_0_r in Hg.
      destruct (runChunk_fulfils ch log Hp Hg) as [v Ev]. rewrite Ev.
      specialize (IH (log ++ [p]) j e).
      destruct (dispatch_all _ (log ++ [p])) as [rs log2]. cbn [fst] in *.
      destruct IH as [Hin Hsame].
      * cbn in Hj. lia.
      * intros q. rewrite length_app. cbn [length].
        replace (length log + 1 + j) with (length log + S j) by lia.
        apply Hfail.
      * intros i q Hi Hne. rewrite length_app. cbn [length].
        replace (length log + 1 + i) with (length log + S i) by lia.
        apply Hok; cbn; lia.
      * split; [now right |].
        intros e' [E | Hin']; [discriminate | now apply Hsame].
Qed.

(** One failing call in a chunk stage whose other calls return text. *)
Lemma chunk_stage_one_failure (chunks : list value) :
  Forall (fun ch => exists prompt, buildChunkPrompt rt ch = Ok prompt) chunks ->
  forall (log : list jstring) (j : nat) (e : error),
    j < length chunks ->
    (forall prompt, generateContent rt (length log + j) prompt = Throw e) ->
    (forall i prompt,
       i < length chunks -> i <> j ->
       exists raw, generateContent rt (length log + i) prompt = Ok raw) ->
    exists log',
      Promise_all (first_rejected rt) (map (runChunk rt) chunks) log
        = (Throw e, log')
      /\ length log' = length log + length chunks.
Proof.
  intros Hb log j e Hj Hfail Hok.
  destruct (dispatch_one_failure Hb log Hj Hfail Hok) as [Hin Hsame].
  exists (snd (dispatch_all (map (runChunk rt) chunks) log)).
  split; [now apply Promise_all_same_error |].
  destruct (dispatch_sends_every_prompt rt log Hb) as (ps & E & F).
  rewrite E, length_app, <- (Forall2_length F). reflexivity.
Qed.

End UpstreamFacts.

(** X7. When the model call of one chunk fails and the others return
    text, the answer is 500 with the message of that failure; the prompt
    of every chunk has been sent all the same, and the synthesis prompt
    has not. *)
Theorem X7_failed_chunk_call_is_fatal (rt : runtime) (fields : props)
  (cs : list value) (xs : props) (j : nat) (e : error) :
  lookup (js "comments") fields = Some (VArr cs xs) ->
  Forall (fun c => is_string c = true) cs ->
  j < length (array_chunks cs) ->
  (forall prompt, generateContent rt j prompt = Throw e) ->
  (forall i prompt,
     i < length (array_chunks cs) -> i <> j ->
     exists raw, generateContent rt i prompt = Ok raw) ->
  exists calls,
    analyze rt (VObj fields) = (Ok (failure 500 (message e)), calls)
    /\ length calls = length (array_chunks cs).
Proof.
  intros Hlookup Hstr Hj Hfail Hok.
  assert (Hne : cs <> []).
  { intros ->. vm_compute in Hj. lia. }
  destruct (@chunk_stage_one_failure rt (array_chunks cs)
              (array_chunks_of_strings rt Hstr) [] j e Hj Hfail Hok)
    as (log & E & L).
  exists log. split; [| exact L].
  rewrite (@analyze_past_guard rt (VObj fields) (VArr cs xs)
             (VNum (Number.of_nat (length cs))) (array_chunks cs)).
  - now rewrite E.
  - cbn [get_prop]. now rewrite Hlookup.
  - reflexivity.
  - apply truthy_length. now apply nonempty_length.
  - reflexivity.
Qed.

Lemma X7_failed_chunk_call_is_fatal_witness :
  exists calls,
    analyze TestDoubleMore.rt_outage (TestDouble.request 150)
      = (Ok (failure 500 (js "fetch failed")), calls)
    /\ length calls = 2.
Proof.
  apply (@X7_failed_chunk_call_is_fatal TestDoubleMore.rt_outage _
           (repeat (VStr (js "nice video")) 150) [] 1 TestDouble.UNAVAILABLE).
  - reflexivity.
  - apply Forall_forall. intros c Hc. apply repeat_spec in Hc. now subst c.
  - vm_compute. lia.
  - intros prompt. reflexivity.
  - intros i prompt Hi Hne. destruct i as [| [| i]].
    + eexists. reflexivity.
    + congruence.
    + exfalso. vm_compute in Hi. lia.
Defined.

(** X8. When the synthesis call itself fails, the request that reached it
    is answered with 500 and the message of that failure, after the
    synthesis prompt has been sent. *)
Theorem X8_failed_synthesis_call_is_fatal (rt : runtime) (req : value)
  (log : list jstring) (agg : aggregate) (e : error) :
  reaches_synthesis rt req agg log ->
  generateContent rt (length log)
    (buildPremiumPrompt rt (aggregate_object agg)) = Throw e ->
  analyze rt req
  = (Ok (failure 500 (message e)),
     log ++ [buildPremiumPrompt rt (aggregate_object agg)]).
Proof.
  intros (given & len & chunks & partials & Hg & Hl & Hb & Hc & E & Eagg)
    Hgen.
  rewrite (analyze_past_guard rt _ Hg Hl Hb Hc), E, Eagg. cbv zeta.
  now rewrite Hgen.
Qed.

Lemma X8_failed_synthesis_call_is_fatal_witness :
  exists calls,
    analyze TestDoubleMore.rt_no_synthesis (TestDouble.request 150)
      = (Ok (failure 500 (js "fetch failed")), calls)
    /\ length calls = 3.
Proof.
  pose (rt := TestDoubleMore.rt_no_synthesis).
  pose (cs := repeat (VStr (js "nice video")) 150).
  pose (log := snd (Promise_all (first_rejected rt) (map (runChunk rt) (array_chunks cs)) [])).
  pose (agg := {| posAvg := Number.of_Z 60; negAvg := Number.of_Z 30;
                  neuAvg := Number.of_Z 10;
                  praise := []; pain := []; themes := [] |}).
  assert (R : reaches_synthesis rt (TestDouble.request 150) agg log).
  { apply (@array_reaches_synthesis rt _ cs []
             [TestDouble.partial 60 30 10; TestDouble.partial 60 30 10]).
    - reflexivity.
    - discriminate.
    - vm_compute. reflexivity.
    - vm_compute. reflexivity. }
  eexists. split.
  - apply (@X8_failed_synthesis_call_is_fatal rt _ log agg
             TestDouble.UNAVAILABLE R).
    vm_compute. reflexivity.
  - vm_compute. reflexivity.
Defined.

(** X9. A synthesis answer that parses to a primitive (a number, a
    string, a boolean or [null]) cannot take the three percentages: the
    first assignment throws and the answer is 500 with the engine's
    message. *)
Theorem X9_primitive_report_is_fatal (rt : runtime) (req : value)
  (log : list jstring) (agg : aggregate) (raw : jstring) (final : value) :
  reaches_synthesis rt req agg log ->
  generateContent rt (length log)
    (buildPremiumPrompt rt (aggregate_object agg)) = Ok raw ->
  JSON_parse rt (clean raw) = Ok final ->
  is_primitive final = true ->
  analyze rt req
  = (Ok (failure 500
           (TypeError_message rt
              (match final with
               | VNull | VUndef => PropertyOfNullish
               | _ => PropertyOnPrimitive
               end))),
     log ++ [buildPremiumPrompt rt (aggregate_object agg)]).
Proof.
  intros (given & len & chunks & partials & Hg & Hl & Hb & Hc & E & Eagg)
    Hgen Hparse Hprim.
  rewrite (analyze_past_guard rt _ Hg Hl Hb Hc), E, Eagg. cbv zeta.
  rewrite Hgen, Hparse.
  destruct final; try discriminate; reflexivity.
Qed.

Lemma X9_primitive_report_is_fatal_witness :
  exists calls,
    analyze TestDoubleMore.rt_number_synthesis (TestDouble.request 150)
      = (Ok (failure 500 (js "TypeError")), calls)
    /\ length calls = 3.
Proof.
  pose (rt := TestDoubleMore.rt_number_synthesis).
  pose (cs := repeat (VStr (js "nice video")) 150).
  pose (log := snd (Promise_all (first_rejected rt) (map (runChunk rt) (array_chunks cs)) [])).
  pose (agg := {| posAvg := Number.of_Z 60; negAvg := Number.of_Z 30;
                  neuAvg := Number.of_Z 10;
                  praise := []; pain := []; themes := [] |}).
  assert (R : reaches_synthesis rt (TestDouble.request 150) agg log).
  { apply (@array_reaches_synthesis rt _ cs []
             [TestDouble.partial 60 30 10; TestDouble.partial 60 30 10]).
    - reflexivity.
    - discriminate.
    - vm_compute. reflexivity.
    - vm_compute. reflexivity. }
  eexists. split.
  - apply (@X9_primitive_report_is_fatal rt _ log agg (js "7")
             (VNum (Number.of_Z 7)) R).
    + vm_compute. reflexivity.
    + vm_compute. reflexivity.
    + reflexivity.
  - vm_compute. reflexivity.
Defined.

(** X10. In every answer with status 200 the three percentages of the
    report are [Math.round] of the very averages that were serialised
    into the synthesis prompt, the last prompt sent. *)
Theorem X10_report_numbers_are_the_prompt_numbers (rt : runtime)
  (req : value) (r : response) (calls : list jstring) :
  analyze rt req = (Ok r, calls) -> status r = 200 ->
  exists agg report log,
    r = success report
    /\ calls = log ++ [buildPremiumPrompt rt (aggregate_object agg)]
    /\ get_prop rt report (js "positivePercentage")
       = Ok (VNum (Number.Math_round (posAvg agg)))
    /\ get_prop rt report (js "negativePercentage")
       = Ok (VNum (Number.Math_round (negAvg agg)))
    /\ get_prop rt report (js "neutralPercentage")
       = Ok (VNum (Number.Math_round (neuAvg agg))).
Proof.
  intros E Hs.
  destruct (analyze_success_inv rt req E Hs)
    as (partials & agg & log & raw & final & report
        & _ & _ & _ & Eins & Ecalls & Er).
  pose proof (insert_numbers_needs_object _ _ _ Eins) as Hobj.
  destruct (insert_numbers_assigns rt agg final Hobj)
    as (report' & Eins' & _ & Hp & Eo).
  rewrite Eins in Eins'. inversion Eins'; subst report'.
  destruct percentage_keys_distinct as (D12 & D13 & D23).
  exists agg, report, log. split; [exact Er |]. split; [exact Ecalls |].
  rewrite !(get_prop_own rt report _ Hp), Eo.
  repeat split.
  - rewrite !lookup_assign_other by assumption.
    now rewrite lookup_assign_same.
  - rewrite lookup_assign_other by assumption.
    now rewrite lookup_assign_same.
  - now rewrite lookup_assign_same.
Qed.

Lemma X10_report_numbers_are_the_prompt_numbers_witness :
  exists agg report log,
    fst (analyze TestDouble.rt_two_chunks (TestDouble.request 150))
      = Ok (success report)
    /\ snd (analyze TestDouble.rt_two_chunks (TestDouble.request 150))
       = log ++ [buildPremiumPrompt TestDouble.rt_two_chunks
                   (aggregate_object agg)]
    /\ get_prop TestDouble.rt_two_chunks report (js "positivePercentage")
       = Ok (VNum (Number.Math_round (posAvg agg)))
    /\ get_prop TestDouble.rt_two_chunks report (js "negativePercentage")
       = Ok (VNum (Number.Math_round (negAvg agg)))
    /\ get_prop TestDouble.rt_two_chunks report (js "neutralPercentage")
       = Ok (VNum (Number.Math_round (neuAvg agg))).
Proof.
  pose (out := analyze TestDouble.rt_two_chunks (TestDouble.request 150)).
  pose (r := match fst out with Ok r => r | Throw _ => failure 0 [] end).
  assert (E : analyze TestDouble.rt_two_chunks (TestDouble.request 150)
              = (Ok r, snd out)) by (vm_compute; reflexivity).
  assert (Hs : status r = 200) by (vm_compute; reflexivity).
  destruct (@X10_report_numbers_are_the_prompt_numbers
              TestDouble.rt_two_chunks (TestDouble.request 150) r (snd out)
              E Hs)
    as (agg & report & log & Hr & Hc & Hp).
  exists agg, report, log.
  split; [rewrite E; cbn [fst]; now rewrite Hr |].
  split; [exact Hc | exact Hp].
Defined.

(** X11. An object under [comments] is judged by its [length] property
    alone.  With a truthy numeric [length] it passes the guard; if the
    length is positive the first [slice] call throws and the answer is 500
    without any model call; if it is not (a negative number, say) the
    loop does not run, no chunk is analysed, and the synthesis is reached
    with the three averages [0 / 0 = NaN] and empty lists. *)
Theorem X11_object_comments (rt : runtime) (fields ps : props) (n : number) :
  lookup (js "comments") fields = Some (VObj ps) ->
  lookup (js "length") ps = Some (VNum n) ->
  ToBoolean (VNum n) = true ->
  (Number.ltb Number.zero n = true ->
   analyze rt (VObj fields)
   = (Ok (failure 500 (TypeError_message rt NotAFunction)), []))
  /\ (Number.ltb Number.zero n = false ->
      reaches_synthesis rt (VObj fields) EMPTY_AGGREGATE []).
Proof.
  intros Hlookup Hlen Hb. split; intros Hlt.
  - unfold analyze, handler, try_catch, bindM, lift, ret, get_prop.
    rewrite Hlookup. cbn [get_length]. rewrite Hlen, Hb. cbn [negb].
    unfold chunking, get_length. rewrite Hlen. cbn [bind].
    unfold js_lt_number, ToNumber, ToPrimitive. cbn [is_primitive bind].
    cbn [prim_ToNumber]. rewrite Hlt. reflexivity.
  - exists (VObj ps), (VNum n), [], [].
    cbn [get_prop]. rewrite Hlookup. cbn [get_length]. rewrite Hlen.
    repeat split; try assumption.
    unfold chunking, get_length. rewrite Hlen. cbn [bind].
    unfold js_lt_number, ToNumber, ToPrimitive. cbn [is_primitive bind].
    cbn [prim_ToNumber]. rewrite Hlt. reflexivity.
Qed.

Lemma X11_object_comments_witness :
  analyze TestDouble.rt
    (TestDoubleMore.request_with
       (VObj [ (js "length", VNum (Number.of_Z 5)) ]))
    = (Ok (failure 500 (js "TypeError")), [])
  /\ reaches_synthesis TestDouble.rt
       (TestDoubleMore.request_with
          (VObj [ (js "length", VNum (Number.of_Z (-1))) ]))
       EMPTY_AGGREGATE [].
Proof.
  split.
  - apply (@X11_object_comments TestDouble.rt _
             [ (js "length", VNum (Number.of_Z 5)) ] (Number.of_Z 5));
      reflexivity.
  - apply (@X11_object_comments TestDouble.rt _
             [ (js "length", VNum (Number.of_Z (-1))) ] (Number.of_Z (-1)));
      reflexivity.
Defined.

(** ** The lists of the aggregate *)

(** X12. When every record is an object that has an array, or nothing,
    under a list key, the aggregate's list is the concatenation of these
    arrays in record order: nothing is dropped, reordered or
    deduplicated, and a missing list adds nothing. *)
Theorem X12_lists_are_concatenated (rt : runtime) (k : jstring)
  (partials : list value) :
  Forall (list_or_missing k) partials ->
  collect rt k partials = Ok (concat (map (list_field k) partials)).
Proof.
  unfold collect. induction 1 as [| p rest (ps & -> & Hk) _ IH].
  - reflexivity.
  - cbn [flatMap get_prop bind map concat list_field]. rewrite IH.
    destruct Hk as [Hk | (es & xs & Hk)]; rewrite Hk; reflexivity.
Qed.

Lemma X12_lists_are_concatenated_witness :
  let a := VObj [ (js "praise", VArr [VStr (js "fun"); VStr (js "clear")] []) ] in
  let b := VObj [ (js "pos", VNum Number.zero) ] in
  let c := VObj [ (js "praise", VArr [VStr (js "fun")] []) ] in
  collect TestDouble.rt (js "praise") [a; b; c]
  = Ok [VStr (js "fun"); VStr (js "clear"); VStr (js "fun")].
Proof.
  intros a b c.
  apply (@X12_lists_are_concatenated TestDouble.rt (js "praise") [a; b; c]).
  repeat constructor.
  - exists [ (js "praise", VArr [VStr (js "fun"); VStr (js "clear")] []) ].
    split; [reflexivity |]. right. eexists. eexists. reflexivity.
  - exists [ (js "pos", VNum Number.zero) ].
    split; [reflexivity |]. left. reflexivity.
  - exists [ (js "praise", VArr [VStr (js "fun")] []) ].
    split; [reflexivity |]. right. eexists. eexists. reflexivity.
Defined.

(** X13. A value under a list key that is not an array is not iterated:
    a truthy one (a string, a non-zero number, an object) enters the list
    as one item, a falsy one ([null], [0], the empty string, [false]) is
    dropped. *)
Theorem X13_scalar_under_list_key (rt : runtime) (k : jstring) (ps : props)
  (v : value) (rest : list value) :
  lookup k ps = Some v ->
  (forall es xs, v <> VArr es xs) ->
  collect rt k (VObj ps :: rest)
  = (l <- collect rt k rest ;; Ok (if ToBoolean v then v :: l else l)).
Proof.
  intros Hk Hv. unfold collect. cbn [flatMap get_prop bind]. rewrite Hk.
  destruct (flatMap _ rest) as [l | e]; cbn [bind]; [| reflexivity].
  unfold or_empty.
  destruct v as [| | [|] | n | [| c s] | es xs | qs];
    try reflexivity.
  - destruct (ToBoolean (VNum n)); reflexivity.
  - exfalso. now apply (Hv es xs).
Qed.

Lemma X13_scalar_under_list_key_witness :
  collect TestDouble.rt (js "pain")
    [ VObj [ (js "pain", VStr (js "too long")) ];
      VObj [ (js "pain", VNull) ];
      VObj [ (js "pain", VNum Number.zero) ] ]
  = Ok [VStr (js "too long")].
Proof.
  rewrite (@X13_scalar_under_list_key TestDouble.rt (js "pain")
             [ (js "pain", VStr (js "too long")) ] (VStr (js "too long")));
    [| reflexivity | discriminate].
  rewrite (@X13_scalar_under_list_key TestDouble.rt (js "pain")
             [ (js "pain", VNull) ] VNull);
    [| reflexivity | discriminate].
  rewrite (@X13_scalar_under_list_key TestDouble.rt (js "pain")
             [ (js "pain", VNum Number.zero) ] (VNum Number.zero));
    [| reflexivity | discriminate].
  reflexivity.
Defined.

(** ** Sums that are not sums *)

Section StringSums.

Variable rt : runtime.

Lemma get_prop_string (k : jstring) (p : value) :
  string_field k p <> None ->
  exists s, string_field k p = Some s /\ get_prop rt p k = Ok (VStr s).
Proof.
  unfold string_field, get_prop.
  destruct p as [| | | | | |ps]; try congruence.
  destruct (lookup k ps) as [[| | | | s | |] |]; try congruence.
  intros _. now exists s.
Qed.

Lemma reduce_strings (k : jstring) (partials : list value) (acc : jstring) :
  Forall (fun p => string_field k p <> None) partials ->
  reduce (fun s p => x <- get_prop rt p k ;; js_add rt s x) partials (VStr acc)
  = Ok (VStr (acc ++ concat (map (fun p => match string_field k p with
                                            | Some s => s
                                            | None => []
                                            end) partials))).
Proof.
  intros H. revert acc. induction H as [| p rest Hp _ IH]; intros acc.
  - cbn. now rewrite app_nil_r.
  - destruct (get_prop_string k p Hp) as [s [Es Eg]].
    cbn [reduce map concat]. rewrite Eg, Es. cbn [bind].
    change (js_add rt (VStr acc) (VStr s)) with (Ok (VStr (acc ++ s)) : result value).
    cbn [bind]. rewrite IH. now rewrite <- app_assoc.
Qed.

End StringSums.

(** X14. Numbers that arrive as strings are not added: [0 + "60"] is the
    string ["060"], every further field is appended to it, and the average
    is whatever number the whole concatenation reads as, divided by the
    count. *)
Theorem X14_string_fields_are_concatenated (rt : runtime) (k : jstring)
  (partials : list value) :
  partials <> [] ->
  Forall (fun p => string_field k p <> None) partials ->
  average rt k partials
  = Ok (Number.div
          (String_toNumber rt
             (Number_toString rt Number.zero
              ++ concat (map (fun p => match string_field k p with
                                       | Some s => s
                                       | None => []
                                       end) partials)))
          (Number.of_nat (length partials))).
Proof.
  intros Hne H. destruct H as [| p rest Hp Hrest]; [congruence |].
  destruct (get_prop_string rt k p Hp) as [s [Es Eg]].
  unfold average. cbn [reduce map concat]. rewrite Eg, Es. cbn [bind].
  change (js_add rt (VNum Number.zero) (VStr s))
    with (Ok (VStr (Number_toString rt Number.zero ++ s)) : result value).
  cbn [bind].
  rewrite (@reduce_strings rt k rest (Number_toString rt Number.zero ++ s)
             Hrest).
  cbn [bind].
  rewrite <- app_assoc. reflexivity.
Qed.

Lemma X14_string_fields_are_concatenated_witness :
  average TestDoubleMore.rt_reads_06040 (js "pos")
    [ VObj [ (js "pos", VStr (js "60")) ];
      VObj [ (js "pos", VStr (js "40")) ] ]
  = Ok (Number.of_Z 3020).
Proof.
  rewrite (@X14_string_fields_are_concatenated TestDoubleMore.rt_reads_06040
             (js "pos")).
  - vm_compute. reflexivity.
  - discriminate.
  - repeat constructor; discriminate.
Defined.

(** X15. A chunk answer that parses to [null] is not tolerated like an
    unparseable one: reading [pos] of [null] throws, so an aggregation
    over records with a [null] among them always throws. *)
Theorem X15_null_record_throws (rt : runtime) (partials : list value) :
  In VNull partials ->
  exists e, aggregate_partials rt partials = Throw e.
Proof.
  intros Hin.
  assert (R : forall acc,
    exists e,
      reduce (fun s p => x <- get_prop rt p (js "pos") ;; js_add rt s x)
        partials acc = Throw e).
  { induction partials as [| p rest IH]; [contradiction |].
    intros acc. cbn [reduce]. destruct Hin as [-> | Hin].
    - cbn. eauto.
    - destruct (x <- get_prop rt p (js "pos") ;; js_add rt acc x)
        as [acc' | e]; cbn [bind]; [now apply IH | eauto]. }
  destruct (R (VNum Number.zero)) as [e E].
  exists e. unfold aggregate_partials, average. rewrite E. reflexivity.
Qed.

Lemma X15_null_record_throws_witness :
  exists e,
    aggregate_partials TestDouble.rt [TestDouble.partial 60 30 10; VNull]
    = Throw e.
Proof.
  apply X15_null_record_throws. right. left. reflexivity.
Defined.

(** ** More on cleaning *)

Section CleanMore.

Import Regex.

Lemma remove_absent (p : pattern) (s : jstring) :
  occurs p s = false -> remove_all p s = s.
Proof.
  induction s as [| c s IH]; [reflexivity |].
  cbn [occurs]. intros H. apply orb_false_elim in H as [M O].
  rewrite (remove_no_match _ _ _ M), (IH O). reflexivity.
Qed.

Lemma trimStart_fixed (s : jstring) : head_not_space s -> trimStart s = s.
Proof.
  destruct s as [| c s]; [reflexivity |]. cbn. now intros ->.
Qed.

Lemma trim_fixed (s : jstring) : trim (trim s) = trim s.
Proof.
  assert (H1 : head_not_space (trim s))
    by (apply trimEnd_head, trimStart_head).
  unfold trim at 1. rewrite (trimStart_fixed _ H1).
  unfold trim, trimEnd. rewrite rev_involutive.
  rewrite (trimStart_fixed _ (trimStart_head _)). reflexivity.
Qed.

Lemma Subseq_refl (s : jstring) : Subseq s s.
Proof. induction s; constructor; assumption. Qed.

Lemma Subseq_nil_l (s : jstring) : Subseq [] s.
Proof. induction s; constructor; assumption. Qed.

Lemma Subseq_trans (a b c : jstring) :
  Subseq a b -> Subseq b c -> Subseq a c.
Proof.
  intros Hab Hbc. revert a Hab.
  induction Hbc as [| x b c Hbc IH | x b c Hbc IH]; intros a Hab.
  - exact Hab.
  - inversion Hab; subst.
    + constructor. now apply IH.
    + apply Subseq_drop. now apply IH.
  - apply Subseq_drop. now apply IH.
Qed.

Lemma Subseq_length (a b : jstring) : Subseq a b -> length a <= length b.
Proof. induction 1; cbn; lia. Qed.

Lemma Subseq_suffix (a t : jstring) : Subseq t (a ++ t).
Proof.
  induction a as [| c a IH]; cbn; [apply Subseq_refl | now constructor].
Qed.

Lemma Subseq_prefix (t b : jstring) : Subseq t (t ++ b).
Proof.
  induction t as [| c t IH]; cbn; [apply Subseq_nil_l | now constructor].
Qed.

Lemma Subseq_remove (p : pattern) (skip : nat) (s : jstring) :
  Subseq (remove_from p skip s) s.
Proof.
  revert skip. induction s as [| c s IH]; intros skip; cbn [remove_from].
  - constructor.
  - destruct skip as [| k]; [| constructor; apply IH].
    destruct (matches_at p (c :: s)); constructor; apply IH.
Qed.

Lemma Subseq_trim (s : jstring) : Subseq (trim s) s.
Proof.
  unfold trim.
  destruct (trimEnd_prefix (trimStart s)) as [b Eb].
  destruct (trimStart_suffix s) as [a Ea].
  apply Subseq_trans with (b := trimStart s).
  - rewrite Eb at 2. apply Subseq_prefix.
  - rewrite Ea at 2. apply Subseq_suffix.
Qed.

End CleanMore.

(** X16. Cleaning is idempotent: a cleaned response holds no fence and no
    outer white space, so cleaning it again changes nothing. *)
Theorem X16_clean_is_idempotent (raw : jstring) :
  clean (clean raw) = clean raw.
Proof.
  assert (F : occurs Regex.FENCE (clean raw) = false).
  { unfold clean. apply occurs_trim, remove_fence_leaves_none. }
  pose proof (occurs_fence_json_fence _ F) as FJ.
  unfold clean at 1.
  rewrite (remove_absent _ _ FJ), (remove_absent _ _ F).
  unfold clean. apply trim_fixed.
Qed.

(** X17. Cleaning only deletes: the cleaned text is the raw response with
    some code units left out, in the same order, and so never longer.
    Nothing is inserted, replaced or moved. *)
Theorem X17_clean_only_deletes (raw : jstring) :
  Subseq (clean raw) raw /\ length (clean raw) <= length raw.
Proof.
  assert (H : Subseq (clean raw) raw).
  { unfold clean, Regex.remove_all.
    eapply Subseq_trans; [apply Subseq_trim |].
    eapply Subseq_trans; apply Subseq_remove. }
  split; [exact H | now apply Subseq_length].
Qed.

(** ** The chunk prompt *)

Section ChunkPromptFacts.

Variable rt : runtime.

Lemma numbered_strings_at (ss : list jstring) (start : nat) :
  exists lines,
    map_indexed (numbered_comment rt) start (map VStr ss) = Ok lines
    /\ length lines = length ss
    /\ forall i s, nth_error ss i = Some s ->
         nth_error lines i = Some (decimal (start + i + 1) ++ js ". " ++ s).
Proof.
  revert start. induction ss as [| s0 ss IH]; intros start.
  - exists []. repeat split. intros [| i] s; discriminate.
  - destruct (IH (S start)) as (lines & E & L & N).
    exists ((decimal (start + 1) ++ js ". " ++ s0) :: lines).
    cbn [map map_indexed]. unfold numbered_comment at 1.
    cbn [ToString ToPrimitive is_primitive bind prim_ToString].
    rewrite E. cbn [bind]. split; [reflexivity |].
    split; [cbn; now rewrite L |].
    intros [| i] s Hs; cbn [nth_error] in *.
    + inversion Hs; subst. now rewrite Nat.add_0_r.
    + rewrite (N i s Hs). do 3 f_equal. lia.
Qed.

End ChunkPromptFacts.

(** X18. The prompt of a chunk of strings is the fixed template followed
    by one line per comment and a final line break; line [i] (from 0) is
    the decimal number [i + 1], a dot, a space and the comment as it is.
    The numbering starts at 1 in every chunk. *)
Theorem X18_chunk_prompt_numbers_comments (rt : runtime) (ss : list jstring)
  (xs : props) :
  exists lines,
    buildChunkPrompt rt (VArr (map VStr ss) xs)
    = Ok (join newline (chunk_prompt_lines ++ [join newline lines; []]))
    /\ length lines = length ss
    /\ forall i s, nth_error ss i = Some s ->
         nth_error lines i = Some (decimal (i + 1) ++ js ". " ++ s).
Proof.
  destruct (numbered_strings_at rt ss 0) as (lines & E & L & N).
  exists lines. unfold buildChunkPrompt. rewrite E. cbn [bind].
  repeat split; [exact L |]. intros i s Hs. exact (N i s Hs).
Qed.

(** ** What a fallback record does to the averages *)

Module SumFacts.

Import Number NumberFacts.

Lemma binary_round_aux_exponent (s : bool) (m e : Z) (l : location) :
  (0 < m)%Z -> (emin prec emax <= e)%Z ->
  exponent_ok (binary_round_aux prec emax s m e l).
Proof.
  intros Hm He. unfold binary_round_aux.
  pose proof (shr_fexp_pos l Hm He) as [H1 H2].
  destruct (shr_fexp prec emax m e l) as [mrs' e']. cbn [fst snd] in H1, H2.
  pose proof (round_nearest_even_pos (loc_of_shr_record mrs') H1) as H3.
  pose proof (shr_fexp_pos loc_Exact H3 H2) as [H4 H5].
  destruct (shr_fexp prec emax _ e' loc_Exact) as [mrs'' e''].
  cbn [fst snd] in H4, H5.
  destruct (shr_m mrs'') as [| q | q]; try exact I.
  destruct (e'' <=? emax - prec)%Z; [exact H5 | exact I].
Qed.

Lemma binary_round_good (s : bool) (p : positive) (e : Z) :
  (emin prec emax <= e)%Z ->
  exponent_ok (binary_round prec emax s p e)
  /\ nonzero (binary_round prec emax s p e).
Proof.
  intros He. unfold binary_round.
  destruct (shl_align p e _) as [mz ez] eqn:Hs.
  assert (Hez : (emin prec emax <= ez)%Z).
  { unfold shl_align in Hs.
    destruct (_ - e)%Z eqn:Hd in Hs; inversion Hs; subst;
      unfold fexp, emin, prec, emax in *; lia. }
  split.
  - apply binary_round_aux_exponent; [lia | exact Hez].
  - apply binary_round_aux_nonzero; [lia | exact Hez].
Qed.

Lemma binary_normalize_good (z e : Z) :
  (emin prec emax <= e)%Z -> good_sum (binary_normalize prec emax z e false).
Proof.
  intros He. destruct z as [| p | p]; cbn [binary_normalize].
  - split; [exact I | discriminate].
  - destruct (binary_round_good false p He) as [H1 [H2 _]].
    split; [exact H1 |]. intros E. rewrite E in H2. discriminate.
  - destruct (binary_round_good true p He) as [H1 [H2 _]].
    split; [exact H1 |]. intros E. rewrite E in H2. discriminate.
Qed.

Lemma add_good (acc x : number) :
  good_sum acc -> exponent_ok x -> good_sum (add acc x).
Proof.
  intros [Ha Hn] Hx. unfold add.
  destruct acc as [sa | sa | | sa ma ea], x as [sx | sx | | sx mx ex];
    cbn [SFadd]; try (split; [exact I | discriminate]);
    try (split; [assumption | discriminate]).
  - destruct sa; [congruence |]. destruct sx; split; try exact I; discriminate.
  - destruct sa, sx; split; try exact I; discriminate.
  - apply binary_normalize_good. cbn [exponent_ok] in Ha, Hx. lia.
Qed.

Lemma add_zero_r (acc : number) :
  acc <> S754_zero true -> add acc zero = acc.
Proof.
  intros Hn. destruct acc as [[|] | | |]; try reflexivity. congruence.
Qed.

Lemma fold_add_good (xs : list number) (acc : number) :
  good_sum acc -> Forall exponent_ok xs -> good_sum (fold_left add xs acc).
Proof.
  intros Ha H. revert acc Ha. induction H as [| x xs Hx _ IH]; intros acc Ha.
  - exact Ha.
  - cbn [fold_left]. apply IH. now apply add_good.
Qed.

Lemma zero_adds_nothing (xs ys : list number) :
  Forall exponent_ok xs ->
  fold_left add (xs ++ zero :: ys) zero = fold_left add (xs ++ ys) zero.
Proof.
  intros Hx. rewrite !fold_left_app. cbn [fold_left].
  assert (G : good_sum (fold_left add xs zero)).
  { apply fold_add_good; [| exact Hx]. split; [exact I | discriminate]. }
  now rewrite (add_zero_r (proj2 G)).
Qed.

Lemma valid_exponent_ok (x : number) :
  valid_binary prec emax x = true -> exponent_ok x.
Proof.
  destruct x as [| | | s m e]; try (intros _; exact I).
  cbn [valid_binary exponent_ok]. unfold bounded, canonical_mantissa.
  intros H. apply andb_prop in H as [H _]. apply Z.eqb_eq in H.
  unfold fexp in H. unfold emin, prec, emax in *. lia.
Qed.

End SumFacts.

Section DilutionFacts.

Variable rt : runtime.

Lemma valid_field_has_number (k : jstring) (p : value) :
  valid_number_field k p -> has_number k p.
Proof. intros (x & E & _). unfold has_number. congruence. Qed.

Lemma valid_fields_exponent_ok (k : jstring) (partials : list value) :
  Forall (valid_number_field k) partials ->
  Forall exponent_ok (field_values k partials).
Proof.
  intros H. unfold field_values. apply Forall_map.
  eapply Forall_impl; [| exact H].
  intros p (x & E & V). rewrite E. now apply SumFacts.valid_exponent_ok.
Qed.

End DilutionFacts.

(** X19. A fallback record among records with binary64 numbers adds
    nothing to the sum of [pos], [neg] or [neu] but counts in the divisor:
    the average is the sum over the other records divided by their number
    plus one, so an unparseable chunk pulls each average toward zero. *)
Theorem X19_fallback_dilutes_the_average (rt : runtime) (k : jstring)
  (before after : list value) :
  In k [js "pos"; js "neg"; js "neu"] ->
  Forall (valid_number_field k) before ->
  Forall (valid_number_field k) after ->
  average rt k (before ++ FALLBACK :: after)
  = Ok (Number.div
          (fold_left Number.add (field_values k (before ++ after)) Number.zero)
          (Number.of_nat (S (length (before ++ after))))).
Proof.
  intros Hk Hb Ha.
  assert (Hf : number_field k FALLBACK = Some Number.zero).
  { destruct Hk as [<- | [<- | [<- | []]]]; reflexivity. }
  assert (Hall : Forall (has_number k) (before ++ FALLBACK :: after)).
  { apply Forall_app. split.
    - eapply Forall_impl; [| exact Hb]. apply valid_field_has_number.
    - constructor; [unfold has_number; congruence |].
      eapply Forall_impl; [| exact Ha]. apply valid_field_has_number. }
  rewrite (average_numbers rt Hall). unfold mean. f_equal. f_equal.
  - unfold field_values. rewrite !map_app. cbn [map]. rewrite Hf.
    apply SumFacts.zero_adds_nothing.
    now apply (valid_fields_exponent_ok (k := k)).
  - unfold field_values. rewrite !length_map, !length_app. cbn [length].
    f_equal. lia.
Qed.

Lemma X19_fallback_dilutes_the_average_witness :
  average TestDouble.rt (js "pos")
    [TestDouble.partial 60 30 10; FALLBACK; TestDouble.partial 30 50 20]
  = Ok (Number.of_Z 30).
Proof.
  assert (Hb : Forall (valid_number_field (js "pos"))
                 [TestDouble.partial 60 30 10]).
  { repeat constructor. eexists. split; reflexivity. }
  assert (Ha : Forall (valid_number_field (js "pos"))
                 [TestDouble.partial 30 50 20]).
  { repeat constructor. eexists. split; reflexivity. }
  pose proof (@X19_fallback_dilutes_the_average TestDouble.rt (js "pos")
                _ _ (or_introl eq_refl) Hb Ha) as H.
  cbn [app] in H. rewrite H. vm_compute. reflexivity.
Defined.

(** ** Which record belongs to which chunk *)

Section OrderFacts.

Variable rt : runtime.

Lemma chunk_stage_in_order (chunks : list value) :
  Forall (fun ch => exists prompt, buildChunkPrompt rt ch = Ok prompt) chunks ->
  forall log : list jstring,
    (forall i prompt,
       i < length chunks ->
       exists raw, generateContent rt (length log + i) prompt = Ok raw) ->
    exists partials prompts,
      Promise_all (first_rejected rt) (map (runChunk rt) chunks) log
        = (Ok partials, log ++ prompts)
      /\ length partials = length chunks
      /\ length prompts = length chunks
      /\ forall i ch,
           nth_error chunks i = Some ch ->
           exists prompt raw,
             nth_error prompts i = Some prompt
             /\ buildChunkPrompt rt ch = Ok prompt
             /\ generateContent rt (length log + i) prompt = Ok raw
             /\ nth_error partials i = Some (chunk_outcome rt raw).
Proof.
  induction 1 as [| ch chunks [p Hp] _ IH]; intros log Hok.
  - exists [], []. cbn. rewrite app_nil_r. repeat split.
    intros [| i] c; discriminate.
  - destruct (Hok 0 p) as [raw Hg]; [cbn; lia |].
    rewrite Nat.add_0_r in Hg.
    destruct (IH (log ++ [p])) as (partials & prompts & E & L1 & L2 & N).
    { intros i q Hi. rewrite length_app. cbn [length].
      replace (length log + 1 + i) with (length log + S i) by lia.
      apply Hok. cbn. lia. }
    exists (chunk_outcome rt raw :: partials), (p :: prompts).
    cbn [map]. split.
    { rewrite <- app_assoc in E. cbn [app] in E.
      eapply Promise_all_cons_ok; [| exact E].
      rewrite (runChunk_result rt ch log Hp Hg). unfold chunk_outcome.
      destruct (JSON_parse rt (clean raw)); reflexivity. }
    split; [cbn; now rewrite L1 |]. split; [cbn; now rewrite L2 |].
    intros [| i] c Hc; cbn [nth_error] in *.
    + inversion Hc; subst c. exists p, raw.
      rewrite Nat.add_0_r. auto.
    + destruct (N i c Hc) as (q & r & Hq & Hb & Hgq & Hn).
      exists q, r. rewrite length_app in Hgq. cbn [length] in Hgq.
      replace (length log + S i) with (length log + 1 + i) by lia. auto.
Qed.

End OrderFacts.

(** X20. When every chunk call returns text, the chunk stage of an array
    of string comments yields one record per chunk, in chunk order: the
    [i]-th call carries the prompt of the [i]-th chunk and the [i]-th
    record is what its answer parsed to, or the fallback. *)
Theorem X20_records_follow_chunk_order (rt : runtime) (cs : list value) :
  Forall (fun c => is_string c = true) cs ->
  (forall i prompt,
     i < length (array_chunks cs) ->
     exists raw, generateContent rt i prompt = Ok raw) ->
  exists partials prompts,
    Promise_all (first_rejected rt) (map (runChunk rt) (array_chunks cs)) []
      = (Ok partials, prompts)
    /\ length partials = length (array_chunks cs)
    /\ forall i ch,
         nth_error (array_chunks cs) i = Some ch ->
         exists prompt raw,
           nth_error prompts i = Some prompt
           /\ buildChunkPrompt rt ch = Ok prompt
           /\ generateContent rt i prompt = Ok raw
           /\ nth_error partials i = Some (chunk_outcome rt raw).
Proof.
  intros Hstr Hok.
  destruct (@chunk_stage_in_order rt (array_chunks cs)
              (array_chunks_of_strings rt Hstr) [] Hok)
    as (partials & prompts & E & L1 & _ & N).
  exists partials, prompts. repeat split; assumption.
Qed.

Lemma X20_records_follow_chunk_order_witness :
  exists partials prompts,
    Promise_all (first_rejected TestDouble.rt) (map (runChunk TestDouble.rt)
                   (array_chunks (repeat (VStr (js "nice video")) 150))) []
      = (Ok partials, prompts)
    /\ nth_error partials 0 = Some (TestDouble.partial 60 30 10)
    /\ nth_error partials 1 = Some FALLBACK.
Proof.
  destruct (@X20_records_follow_chunk_order TestDouble.rt
              (repeat (VStr (js "nice video")) 150))
    as (partials & prompts & E & L & N).
  - apply Forall_forall. intros c Hc. apply repeat_spec in Hc. now subst c.
  - intros i prompt Hi. destruct i as [| [| i]].
    + eexists. reflexivity.
    + eexists. reflexivity.
    + exfalso. vm_compute in Hi. lia.
  - exists partials, prompts. split; [exact E |].
    split.
    + destruct (N 0 (VArr (repeat (VStr (js "nice video")) 100) []))
        as (q & r & _ & _ & Hg & Hn); [vm_compute; reflexivity |].
      cbn in Hg. inversion Hg; subst r. exact Hn.
    + destruct (N 1 (VArr (repeat (VStr (js "nice video")) 50) []))
        as (q & r & _ & _ & Hg & Hn); [vm_compute; reflexivity |].
      cbn in Hg. inversion Hg; subst r. exact Hn.
Defined.

(** ** The keys of the report *)

Section KeyFacts.

Lemma assign_keys (k : jstring) (v : value) (ps : props) :
  map fst (assign k v ps)
  = if existsb (jstring_eqb k) (map fst ps)
    then map fst ps
    else map fst ps ++ [k].
Proof.
  induction ps as [| [k' v'] rest IH]; cbn; [reflexivity |].
  destruct (jstring_eqb k k') eqn:E; cbn; [reflexivity |].
  rewrite IH. destruct (existsb _ _); reflexivity.
Qed.

Lemma existsb_jstring_In (k : jstring) (l : list jstring) :
  existsb (jstring_eqb k) l = true <-> In k l.
Proof.
  rewrite existsb_exists. split.
  - intros (x & Hx & E). apply jstring_eqb_eq in E. now subst.
  - intros H. exists k. split; [exact H | apply jstring_eqb_refl].
Qed.

Lemma assign_keys_facts (k : jstring) (v : value) (ps : props) :
  In k (map fst (assign k v ps))
  /\ incl (map fst ps) (map fst (assign k v ps))
  /\ (NoDup (map fst ps) -> NoDup (map fst (assign k v ps)))
  /\ length (assign k v ps) <= S (length ps).
Proof.
  rewrite <- (length_map fst (assign k v ps)), <- (length_map fst ps).
  rewrite assign_keys.
  destruct (existsb (jstring_eqb k) (map fst ps)) eqn:E.
  - apply existsb_jstring_In in E.
    repeat split; [exact E | apply incl_refl | auto | lia].
  - assert (Hn : ~ In k (map fst ps)).
    { intros H. apply existsb_jstring_In in H. congruence. }
    repeat split.
    + apply in_or_app. right. now left.
    + apply incl_appl, incl_refl.
    + intros Hd. apply NoDup_app; [exact Hd | repeat constructor; auto |].
      intros x Hx [<- | []]. contradiction.
    + rewrite length_app. cbn. lia.
Qed.

End KeyFacts.

(** X21. The overwrite keeps the report a well-formed object: it has the
    three percentage keys, every key the parsed object had, at most three
    keys more, and no key twice if the parsed object had none twice. *)
Theorem X21_report_keys (rt : runtime) (agg : aggregate)
  (final report : value) :
  insert_numbers rt agg final = Ok report ->
  incl [js "positivePercentage"; js "negativePercentage";
        js "neutralPercentage"] (keys report)
  /\ incl (keys final) (keys report)
  /\ length (keys report) <= length (keys final) + 3
  /\ (NoDup (keys final) -> NoDup (keys report)).
Proof.
  intros E. pose proof (insert_numbers_needs_object _ _ _ E) as Hobj.
  destruct (insert_numbers_assigns rt agg final Hobj)
    as (report' & E' & _ & _ & Eo).
  rewrite E in E'. inversion E'; subst report'. clear E'.
  unfold keys. rewrite Eo. rewrite !length_map.
  set (p0 := own_props final).
  set (p1 := assign (js "positivePercentage") _ p0).
  set (p2 := assign (js "negativePercentage") _ p1).
  destruct (assign_keys_facts (js "positivePercentage")
              (VNum (Number.Math_round (posAvg agg))) p0)
    as (I1 & S1 & D1 & L1).
  destruct (assign_keys_facts (js "negativePercentage")
              (VNum (Number.Math_round (negAvg agg))) p1)
    as (I2 & S2 & D2 & L2).
  destruct (assign_keys_facts (js "neutralPercentage")
              (VNum (Number.Math_round (neuAvg agg))) p2)
    as (I3 & S3 & D3 & L3).
  fold p1 in I1, S1, D1, L1, I2, S2, D2, L2.
  fold p2 in I2, S2, D2, L2, I3, S3, D3, L3.
  repeat split.
  - intros k [<- | [<- | [<- | []]]]; auto.
  - intros k Hk. auto.
  - lia.
  - auto.
Qed.

Lemma X21_report_keys_witness :
  exists report,
    insert_numbers TestDouble.rt EMPTY_AGGREGATE
      (VObj [ (js "negativePercentage", VNull); (js "contentIdeas", VArr [] []) ])
    = Ok report
    /\ keys report
       = [ js "negativePercentage"; js "contentIdeas";
           js "positivePercentage"; js "neutralPercentage" ]
    /\ NoDup (keys report).
Proof.
  eexists. split; [reflexivity |]. split; [reflexivity |].
  refine (proj2 (proj2 (proj2
    (@X21_report_keys TestDouble.rt EMPTY_AGGREGATE
       (VObj [ (js "negativePercentage", VNull);
               (js "contentIdeas", VArr [] []) ]) _ eq_refl))) _).
  repeat constructor; cbn; intuition discriminate.
Defined.

Lemma X18_chunk_prompt_numbers_comments_witness :
  exists lines,
    buildChunkPrompt TestDouble.rt
      (VArr [VStr (js "first"); VStr (js "second")] [])
    = Ok (join newline (chunk_prompt_lines ++ [join newline lines; []]))
    /\ nth_error lines 1 = Some (js "2. second").
Proof.
  destruct (X18_chunk_prompt_numbers_comments TestDouble.rt
              [js "first"; js "second"] [])
    as (lines & E & _ & N).
  exists lines. split; [exact E |].
  exact (N 1 (js "second") eq_refl).
Defined.
